(** * Amortization schedules and regulatory maturity buckets

    A shallow embedding of [calculator.py] (class [Amortization]),
    [bucket.py] (classes [BucketIRRBB], [BucketLCR], [BucketNSFR]) and the
    tenor properties of [model.py].

    Conventions of the embedding.
    - A [pd.Timestamp] is a calendar date at midnight: a record of year,
      month and day over [Z].  Ordering is the lexicographic one and the
      difference in days is the difference of proleptic Gregorian ordinals.
    - Numbers are read twice.  The module [B64] has the amounts and the
      rates as the code computes them, in IEEE 754 binary64 (the primitive
      [float]), with [round(x, 2)] of Python and of NumPy, the compensated
      group sums of pandas and the platform's [pow] as a parameter.  The
      values of the fields of a schedule and of the tall aggregations are
      stated there.
    - The definitions outside [B64] read the same code over exact
      rationals [Q]; the binary rounding error of IEEE doubles is outside
      that reading.  It serves for the dates, the flags, the errors, the
      bucket labels, the selection of values and the order and sign of
      amounts.  Values that the source passes through [round(x, 2)] are
      kept in lowest terms there, so they are compared with Leibniz
      equality; unrounded intermediate values are compared with [==].
    - [str.lower] acts on the ASCII letters.
    - A [ValueError] is a value of type [error]; a [DataFrame] is the list of
      its rows. *)

From Stdlib Require Import ZArith QArith Qround Qabs Qpower Qfield Floats Lia Lqa
  String Ascii.
From stdpp Require Import gmap strings list.

Local Open Scope Z_scope.

(** ** Calendar *)

Record Timestamp := mkTimestamp { year : Z; month : Z; day : Z }.

(** [calendar.isleap] *)
Definition isleap (y : Z) : bool :=
  (y mod 4 =? 0) && (negb (y mod 100 =? 0) || (y mod 400 =? 0)).

(** [calendar.mdays], indexed by month; an index outside 1..12 (where
    [calendar.monthrange] raises [IllegalMonthError]) gives 0. *)
Definition mdays (m : Z) : Z :=
  match m with
  | 1 => 31 | 2 => 28 | 3 => 31 | 4 => 30 | 5 => 31 | 6 => 30
  | 7 => 31 | 8 => 31 | 9 => 30 | 10 => 31 | 11 => 30 | 12 => 31
  | _ => 0
  end.

(** [calendar.monthrange(year, month)[1]]: the number of days of the month. *)
Definition monthrange (y m : Z) : Z :=
  mdays m + (if (m =? 2) && isleap y then 1 else 0).

Definition valid_month (m : Z) : Prop := 1 <= m <= 12.

Definition valid_date (d : Timestamp) : Prop :=
  valid_month (month d) /\ 1 <= day d <= monthrange (year d) (month d).

(** [a > b] and [a <= b] on timestamps. *)
Definition Timestamp_gt (a b : Timestamp) : bool :=
  (year a >? year b)
  || ((year a =? year b)
      && ((month a >? month b)
          || ((month a =? month b) && (day a >? day b)))).

Definition Timestamp_le (a b : Timestamp) : bool := negb (Timestamp_gt a b).

(** Days before January 1st of year [y] and before the first of month [m],
    as in [datetime]'s [_days_before_year] and [_days_before_month]. *)
Definition days_before_year (y : Z) : Z :=
  let y' := y - 1 in y' * 365 + y' / 4 - y' / 100 + y' / 400.

Definition days_before_month (y m : Z) : Z :=
  match m with
  | 1 => 0 | 2 => 31 | 3 => 59 | 4 => 90 | 5 => 120 | 6 => 151
  | 7 => 181 | 8 => 212 | 9 => 243 | 10 => 273 | 11 => 304 | 12 => 334
  | _ => 0
  end + (if (m >? 2) && isleap y then 1 else 0).

Definition toordinal (d : Timestamp) : Z :=
  days_before_year (year d) + days_before_month (year d) (month d) + day d.

(** [(a - b).days] *)
Definition days_between (a b : Timestamp) : Z := toordinal a - toordinal b.

(** [(a.year - b.year) * 12 + (a.month - b.month)] *)
Definition months_between (a b : Timestamp) : Z :=
  (year a - year b) * 12 + (month a - month b).

(** ** Payment dates generator *)

(** [month += 1; if month > 12: month = 1; year += 1] *)
Definition next_month (y m : Z) : Z * Z :=
  let m := m + 1 in
  if m >? 12 then (y + 1, 1) else (y, m).

(** The [while True] loop of [generate_payment_dates], one iteration per unit
    of fuel; [None] when the fuel runs out before the [break]. *)
Fixpoint payment_dates_loop (fuel : nat) (anchor_day : Z) (end_date : Timestamp)
    (y m : Z) : option (list Timestamp) :=
  match fuel with
  | O => None
  | S fuel' =>
      let last_day := monthrange y m in
      let d := mkTimestamp y m (Z.min anchor_day last_day) in
      if Timestamp_gt d end_date then Some []
      else
        let '(y', m') := next_month y m in
        cons d <$> payment_dates_loop fuel' anchor_day end_date y' m'
  end.

(** A number of iterations after which the loop has left the month of
    [end_date] behind. *)
Definition loop_measure (end_date : Timestamp) (y m : Z) : Z :=
  (year end_date - y) * 12 + Z.max 0 (12 - m) + 1.

Definition loop_fuel (end_date : Timestamp) (y m : Z) : nat :=
  S (Z.to_nat (loop_measure end_date y m)).

Definition first_month (reporting_date end_date : Timestamp) : Z * Z :=
  if day reporting_date >=? day end_date
  then next_month (year reporting_date) (month reporting_date)
  else (year reporting_date, month reporting_date).

Definition generate_payment_dates (reporting_date end_date : Timestamp)
    : list Timestamp :=
  let anchor_day := day end_date in
  let '(y, m) := first_month reporting_date end_date in
  default [] (payment_dates_loop (loop_fuel end_date y m) anchor_day end_date y m).

(** ** Numbers *)

(** [round(x, 2)]: the nearest multiple of 1/100, ties to the even one. *)
Definition round_half_even (x : Q) : Z :=
  let f := Qfloor x in
  match Qcompare (x - inject_Z f) (1 # 2) with
  | Lt => f
  | Gt => f + 1
  | Eq => if Z.even f then f else f + 1
  end.

Definition round2 (x : Q) : Q := Qred (round_half_even (x * 100) # 100).

(** [max(a, b)] of Python: the second argument only when it is greater. *)
Definition py_max (a b : Q) : Q :=
  match Qcompare b a with Gt => b | _ => a end.

(** [numpy_financial.pmt(rate, nper, pv)] with [fv = 0] and [when = 'end']
    (that is, [when = 0]), following the library's definition:
    [temp = (1 + rate)**nper], [fact = nper] when [rate == 0] and
    [(1 + rate*when) * (temp - 1) / rate] otherwise, result
    [-(fv + pv*temp) / fact].  Division is that of [Q]; where the library
    divides by zero it returns an infinity or NaN, which [Q] does not have. *)
Definition npf_pmt (rate : Q) (nper : nat) (pv : Q) : Q :=
  let temp := ((1 + rate) ^ Z.of_nat nper)%Q in
  let fact :=
    if Qeq_bool rate 0 then inject_Z (Z.of_nat nper)
    else ((1 + rate * 0) * (temp - 1) / rate)%Q in
  (- (0 + pv * temp) / fact)%Q.

(** ** Strings *)

Definition lower_ascii (c : ascii) : ascii :=
  let n := nat_of_ascii c in
  if ((65 <=? n) && (n <=? 90))%nat then ascii_of_nat (n + 32) else c.

(** [str.lower] *)
Fixpoint lower (s : string) : string :=
  match s with
  | EmptyString => EmptyString
  | String c s' => String (lower_ascii c) (lower s')
  end.

(** ** Loans and schedule rows ([model.py]) *)

(** The fields of [Loan] that the engine reads; the descriptive ones
    (product type, segment, region, ...) are carried through untouched. *)
Record Loan := mkLoan {
  reporting_date : Timestamp;
  account_id : string;
  currency : string;
  outstanding : Q;
  interest_rate : Q;
  start_date : Timestamp;
  end_date : Timestamp;
  installment : string;
  method : string
}.

(** One row of the schedule [DataFrame]. *)
Record ScheduleRow := mkRow {
  period : nat;
  payment_date : Timestamp;
  payment : Q;
  principal : Q;
  interest : Q;
  remaining_balance : Q
}.

(** The two [ValueError]s of [schedule] and the one of
    [_empty_bucket_result]. *)
Inductive error := InvalidMethod | InvalidInstallmentFlag | UnknownBucketType.

Inductive result (A : Type) :=
| Ok (a : A)
| Err (e : error).
Arguments Ok {A} a.
Arguments Err {A} e.

(** ** Schedule *)

(** The loop of the bullet branch, from period [i] on. *)
Fixpoint bullet_rows (principal_ monthly_interest : Q) (periods : nat)
    (i : nat) (balance : Q) (payment_dates : list Timestamp)
    : list ScheduleRow :=
  match payment_dates with
  | [] => []
  | pay_date :: rest =>
      let principal_payment := if (i =? periods)%nat then principal_ else 0%Q in
      let interest_ := monthly_interest in
      let payment_ := (principal_payment + interest_)%Q in
      let balance := (balance - principal_payment)%Q in
      mkRow i pay_date (round2 payment_) (round2 principal_payment)
            (round2 interest_) (round2 (py_max balance 0))
      :: bullet_rows principal_ monthly_interest periods (S i) balance rest
  end.

(** The loop of the annuity branch. *)
Fixpoint annuity_rows (r pmt : Q) (i : nat) (balance : Q)
    (payment_dates : list Timestamp) : list ScheduleRow :=
  match payment_dates with
  | [] => []
  | pay_date :: rest =>
      let interest_ := (balance * r)%Q in
      let principal_payment := (pmt - interest_)%Q in
      let balance := (balance - principal_payment)%Q in
      mkRow i pay_date (round2 pmt) (round2 principal_payment)
            (round2 interest_) (round2 (py_max balance 0))
      :: annuity_rows r pmt (S i) balance rest
  end.

(** The loop of the flat branch. *)
Fixpoint flat_rows (monthly_principal monthly_interest payment_ : Q)
    (i : nat) (balance : Q) (payment_dates : list Timestamp)
    : list ScheduleRow :=
  match payment_dates with
  | [] => []
  | pay_date :: rest =>
      let balance := (balance - monthly_principal)%Q in
      mkRow i pay_date (round2 payment_) (round2 monthly_principal)
            (round2 monthly_interest) (round2 (py_max balance 0))
      :: flat_rows monthly_principal monthly_interest payment_ (S i) balance rest
  end.

(** [pmt] of the annuity branch. *)
Definition annuity_pmt (r : Q) (periods : nat) (principal_ : Q) : Q :=
  if negb (Qeq_bool r 0) then npf_pmt r periods (- principal_)
  else (principal_ / inject_Z (Z.of_nat periods))%Q.

Definition schedule (loan : Loan) : result (list ScheduleRow) :=
  let principal_ := outstanding loan in
  let annual_rate := interest_rate loan in
  let method_ := lower (method loan) in
  let installment_ := lower (installment loan) in
  let payment_dates :=
    generate_payment_dates (reporting_date loan) (end_date loan) in
  let periods := length payment_dates in
  if Timestamp_le (end_date loan) (reporting_date loan) then Ok []
  else
    let r := (annual_rate / 12)%Q in
    let balance := principal_ in
    if String.eqb installment_ "no" then
      let monthly_interest := (principal_ * r)%Q in
      Ok (bullet_rows principal_ monthly_interest periods 1 balance payment_dates)
    else if String.eqb installment_ "yes" then
      if String.eqb method_ "annuity" then
        let pmt := annuity_pmt r periods principal_ in
        Ok (annuity_rows r pmt 1 balance payment_dates)
      else if String.eqb method_ "flat" then
        let monthly_principal := (principal_ / inject_Z (Z.of_nat periods))%Q in
        let monthly_interest := (principal_ * r)%Q in
        let payment_ := (monthly_principal + monthly_interest)%Q in
        Ok (flat_rows monthly_principal monthly_interest payment_ 1 balance
                      payment_dates)
      else Err InvalidMethod
    else Err InvalidInstallmentFlag.

(** The values of the annuity loop before rounding: for each period the
    interest, the principal payment and the balance after the payment. *)
Fixpoint annuity_trace (r pmt : Q) (balance : Q) (n : nat) : list (Q * Q * Q) :=
  match n with
  | O => []
  | S n' =>
      let interest_ := (balance * r)%Q in
      let principal_payment := (pmt - interest_)%Q in
      let balance := (balance - principal_payment)%Q in
      (interest_, principal_payment, balance) :: annuity_trace r pmt balance n'
  end.


(** ** Bucket classifiers ([bucket.py]) *)

(** A bin edge: an integer or [np.inf]. *)
Inductive edge := Fin (z : Z) | Inf.

Definition edge_ltb (e : edge) (x : Z) : bool :=
  match e with Fin z => z <? x | Inf => false end.

Definition edge_eqb (e : edge) (x : Z) : bool :=
  match e with Fin z => z =? x | Inf => false end.

(** [bins.searchsorted(x, side="left")]: the number of leading edges below
    [x] (the edges are increasing). *)
Fixpoint searchsorted_left (bins : list edge) (x : Z) : nat :=
  match bins with
  | [] => O
  | b :: bins' => if edge_ltb b x then S (searchsorted_left bins' x) else O
  end.

(** [pd.cut([x], bins=bins, labels=labels, right=True,
    include_lowest=include_lowest)[0]], following pandas: the position of
    [x] among the edges, moved to the first bin when [include_lowest] and
    [x] is the first edge; [None] (NaN) when [x] lies in no bin. *)
Definition pd_cut (x : Z) (bins : list edge) (labels : list string)
    (include_lowest : bool) : option string :=
  let ids := searchsorted_left bins x in
  let ids :=
    if include_lowest && match bins with b :: _ => edge_eqb b x | [] => false end
    then 1%nat else ids in
  if ((ids =? length bins) || (ids =? 0))%nat then None
  else labels !! (ids - 1)%nat.

(** [.astype(str)] on a label or NaN. *)
Definition astype_str (l : option string) : string := default "nan" l.

Module BucketIRRBB.

Definition MONTH_EDGES : list edge :=
  [Fin 1; Fin 3; Fin 6; Fin 9; Fin 12;
   Fin 18; Fin 24; Fin 36; Fin 48; Fin 60;
   Fin 72; Fin 84; Fin 96; Fin 108; Fin 120;
   Fin 180; Fin 240; Inf].

Definition MONTH_LABELS : list string :=
  ["1-3 bulan"; "3-6 bulan"; "6-9 bulan"; "9-12 bulan";
   "1-1.5Y"; "1.5-2Y"; "2-3Y"; "3-4Y"; "4-5Y"; "5-6Y";
   "6-7Y"; "7-8Y"; "8-9Y"; "9-10Y"; "10-15Y"; "15-20Y"; "> 20Y"].

Definition days (start_date end_date : Timestamp) : Z :=
  days_between end_date start_date.

Definition months (start_date end_date : Timestamp) : Z :=
  months_between end_date start_date.

(** [None] is the NaN that [pd.cut] gives outside the bins. *)
Definition get_bucket (start_date end_date : Timestamp) : option string :=
  if days start_date end_date <=? 30 then Some "≤ 1 bulan"
  else
    let m := months start_date end_date in
    pd_cut m MONTH_EDGES MONTH_LABELS false.

End BucketIRRBB.

Module BucketLCR.

Definition LABELS : list string := ["≤30D"; ">30D"].

Definition days (reporting_date end_date : Timestamp) : Z :=
  days_between end_date reporting_date.

Definition get_bucket (reporting_date end_date : Timestamp) : string :=
  if days reporting_date end_date <=? 30 then "≤30D" else ">30D".

End BucketLCR.

Module BucketNSFR.

Definition LABELS : list string := ["<6M"; "6-12M"; ">12M"].

Definition months (reporting_date end_date : Timestamp) : Z :=
  months_between end_date reporting_date.

Definition get_bucket (reporting_date end_date : Timestamp) : string :=
  let m := months reporting_date end_date in
  if m <? 6 then "<6M"
  else if m <=? 12 then "6-12M"
  else ">12M".

End BucketNSFR.

(** ** Aggregation ([calculator.py]) *)

(** A bucket result: the tall frame has the columns [bucket] and [value] and
    one row per label; the flattened frame has one row and one column per
    label. *)
Inductive BucketFrame :=
| Tall (rows : list (string * Q))
| Flat (columns : list (string * Q)).

Definition _empty_bucket_result (bucket_type : string) : result BucketFrame :=
  let with_labels (labels : list string) :=
    Ok (Tall (zip labels (replicate (length labels) 0%Q))) in
  if String.eqb bucket_type "irrbb" then
    with_labels ("≤ 1 bulan" :: BucketIRRBB.MONTH_LABELS)
  else if String.eqb bucket_type "lcr" then with_labels ["≤30D"; ">30D"]
  else if String.eqb bucket_type "nsfr" then with_labels ["<6M"; "6-12M"; ">12M"]
  else Err UnknownBucketType.

(** [df.groupby("bucket")["value"].sum()]: the sum of the values per bucket
    that occurs, added in row order. *)
Definition groupby_sum (df : list (string * Q)) : gmap string Q :=
  foldl (fun acc '(bucket, value) =>
           <[bucket := (default 0%Q (acc !! bucket) + value)%Q]> acc) ∅ df.

(** [.reindex(labels, fill_value=0)] *)
Definition reindex (labels : list string) (fill_value : Q)
    (s : gmap string Q) : list (string * Q) :=
  (fun l => (l, default fill_value (s !! l))) <$> labels.

(** The [bucket] column of the IRRBB operations. *)
Definition irrbb_bucket (reporting_date : Timestamp) (row : ScheduleRow)
    : string :=
  let days := days_between (payment_date row) reporting_date in
  let months := months_between (payment_date row) reporting_date in
  let mask_1m := days <=? 30 in
  if mask_1m then "≤ 1 bulan"
  else astype_str (pd_cut months BucketIRRBB.MONTH_EDGES
                          BucketIRRBB.MONTH_LABELS true).

(** The [bucket] column of the LCR operations. *)
Definition lcr_bucket (reporting_date : Timestamp) (row : ScheduleRow)
    : string :=
  let days := days_between (payment_date row) reporting_date in
  if days <=? 30 then "≤30D" else ">30D".

(** The [bucket] column of the NSFR operations ([np.select] with its
    default). *)
Definition nsfr_bucket (reporting_date : Timestamp) (row : ScheduleRow)
    : string :=
  let months := months_between (payment_date row) reporting_date in
  if months <? 6 then "<6M"
  else if (months >=? 6) && (months <=? 12) then "6-12M"
  else if months >? 12 then ">12M"
  else ">12M".

(** The [value] column of the tall operations and of the flattened IRRBB
    one. *)
Definition plain_value (value_type : string) (row : ScheduleRow) : Q :=
  if String.eqb value_type "principal" then principal row
  else if String.eqb value_type "interest" then interest row
  else (principal row + interest row)%Q.

(** The [value] column of [get_bucket_lcr_flat]. *)
Definition lcr_flat_value (value_type : string) (bucket : string)
    (row : ScheduleRow) : Q :=
  if String.eqb value_type "principal" then principal row
  else if String.eqb value_type "interest" then
    (if String.eqb bucket "≤30D" then interest row else 0%Q)
  else (principal row + (if String.eqb bucket "≤30D" then interest row else 0))%Q.

(** The [value] column of [get_bucket_nsfr_flat]. *)
Definition nsfr_flat_value (value_type : string) (row : ScheduleRow) : Q :=
  if String.eqb value_type "principal" then principal row
  else if String.eqb value_type "interest" then 0%Q
  else (principal row + interest row)%Q.

Definition irrbb_labels : list string :=
  "≤ 1 bulan" :: BucketIRRBB.MONTH_LABELS.

Definition get_bucket_irrbb (loan : Loan) (value_type : string)
    : result BucketFrame :=
  match schedule loan with
  | Err e => Err e
  | Ok [] => _empty_bucket_result "irrbb"
  | Ok df =>
      let df := (fun row => (irrbb_bucket (reporting_date loan) row,
                             plain_value value_type row)) <$> df in
      Ok (Tall (reindex irrbb_labels 0 (groupby_sum df)))
  end.

Definition get_bucket_lcr (loan : Loan) (value_type : string)
    : result BucketFrame :=
  match schedule loan with
  | Err e => Err e
  | Ok [] => _empty_bucket_result "lcr"
  | Ok df =>
      let df := (fun row => (lcr_bucket (reporting_date loan) row,
                             plain_value value_type row)) <$> df in
      Ok (Tall (reindex ["≤30D"; ">30D"] 0 (groupby_sum df)))
  end.

Definition get_bucket_nsfr (loan : Loan) (value_type : string)
    : result BucketFrame :=
  match schedule loan with
  | Err e => Err e
  | Ok [] => _empty_bucket_result "nsfr"
  | Ok df =>
      let df := (fun row => (nsfr_bucket (reporting_date loan) row,
                             plain_value value_type row)) <$> df in
      Ok (Tall (reindex ["<6M"; "6-12M"; ">12M"] 0 (groupby_sum df)))
  end.

Definition get_bucket_irrbb_flat (loan : Loan) (value_type : string)
    : result BucketFrame :=
  match schedule loan with
  | Err e => Err e
  | Ok [] => _empty_bucket_result "irrbb"
  | Ok df =>
      let df := (fun row => (irrbb_bucket (reporting_date loan) row,
                             plain_value value_type row)) <$> df in
      Ok (Flat (reindex irrbb_labels 0 (groupby_sum df)))
  end.

Definition get_bucket_lcr_flat (loan : Loan) (value_type : string)
    : result BucketFrame :=
  match schedule loan with
  | Err e => Err e
  | Ok [] => _empty_bucket_result "lcr"
  | Ok df =>
      let df := (fun row =>
                   let bucket := lcr_bucket (reporting_date loan) row in
                   (bucket, lcr_flat_value value_type bucket row)) <$> df in
      Ok (Flat (reindex ["≤30D"; ">30D"] 0 (groupby_sum df)))
  end.

Definition get_bucket_nsfr_flat (loan : Loan) (value_type : string)
    : result BucketFrame :=
  match schedule loan with
  | Err e => Err e
  | Ok [] => _empty_bucket_result "nsfr"
  | Ok df =>
      let df := (fun row => (nsfr_bucket (reporting_date loan) row,
                             nsfr_flat_value value_type row)) <$> df in
      Ok (Flat (reindex ["<6M"; "6-12M"; ">12M"] 0 (groupby_sum df)))
  end.

(** ** The IRRBB intervals as the specification lists them *)

(** The month intervals [1,3], (3,6], (6,9], (9,12], (12,18], (18,24],
    (24,36], (36,48], (48,60], (60,72], (72,84], (84,96], (96,108],
    (108,120], (120,180], (180,240], (240,inf) with their labels; no label
    below 1. *)
Definition spec_month_label (months : Z) : option string :=
  if months <? 1 then None
  else if months <=? 3 then Some "1-3 bulan"
  else if months <=? 6 then Some "3-6 bulan"
  else if months <=? 9 then Some "6-9 bulan"
  else if months <=? 12 then Some "9-12 bulan"
  else if months <=? 18 then Some "1-1.5Y"
  else if months <=? 24 then Some "1.5-2Y"
  else if months <=? 36 then Some "2-3Y"
  else if months <=? 48 then Some "3-4Y"
  else if months <=? 60 then Some "4-5Y"
  else if months <=? 72 then Some "5-6Y"
  else if months <=? 84 then Some "6-7Y"
  else if months <=? 96 then Some "7-8Y"
  else if months <=? 108 then Some "8-9Y"
  else if months <=? 120 then Some "9-10Y"
  else if months <=? 180 then Some "10-15Y"
  else if months <=? 240 then Some "15-20Y"
  else Some "> 20Y".

(** The IRRBB rule: the day bucket up to 30 days, the month intervals
    after. *)
Definition spec_irrbb_label (days months : Z) : option string :=
  if days <=? 30 then Some "≤ 1 bulan" else spec_month_label months.

(** ** Sums over rows, to state what the aggregations return *)

Definition Qsum (xs : list Q) : Q := foldr Qplus 0%Q xs.

(** The sum of [value] over the rows whose bucket is [l]. *)
Definition bucket_sum (bucket : ScheduleRow -> string)
    (value : ScheduleRow -> Q) (l : string) (rows : list ScheduleRow) : Q :=
  Qsum (value <$> filter (fun row => bucket row = l) rows).

(** ** Definitions used to state the results *)

(** The leap day of year [y]. *)
Definition leap_day (y : Z) : Z := if isleap y then 1 else 0.

(** Every label of [labels] with the value 0. *)
Definition zero_cells (labels : list string) : list (string * Q) :=
  (fun l => (l, 0%Q)) <$> labels.

(** [loan] with other [installment] and [method] fields. *)
Definition with_flags (loan : Loan) (installment_ method_ : string) : Loan :=
  mkLoan (reporting_date loan) (account_id loan) (currency loan)
         (outstanding loan) (interest_rate loan) (start_date loan)
         (end_date loan) installment_ method_.

(** ** Example loans *)

(** A flat loan of 1 over three periods. *)
Definition flat_loan_thirds : Loan :=
  mkLoan (mkTimestamp 2024 1 1) "F-1" "IDR" 1 0
         (mkTimestamp 2023 1 1) (mkTimestamp 2024 4 1) "yes" "flat".

(** The flat loan of the specification's example. *)
Definition flat_loan_example : Loan :=
  mkLoan (mkTimestamp 2024 1 1) "F-2" "IDR" 1200000 (12 # 100)
         (mkTimestamp 2023 1 1) (mkTimestamp 2025 1 1) "yes" "flat".

(** An annuity loan over three periods. *)
Definition annuity_loan_example : Loan :=
  mkLoan (mkTimestamp 2024 1 1) "A-1" "IDR" 1200000 (12 # 100)
         (mkTimestamp 2023 1 1) (mkTimestamp 2024 4 1) "yes" "annuity".

(** A loan that ends on its reporting date, with invalid flags. *)
Definition expired_loan : Loan :=
  mkLoan (mkTimestamp 2024 6 30) "E-1" "IDR" 1000000 (12 # 100)
         (mkTimestamp 2023 1 1) (mkTimestamp 2024 6 30) "maybe" "foo".

(** A loan whose flags are not in lower case. *)
Definition upper_case_loan : Loan :=
  mkLoan (mkTimestamp 2024 1 1) "U-1" "IDR" 1200000 (12 # 100)
         (mkTimestamp 2023 1 1) (mkTimestamp 2024 4 1) "YES" "Foo".

(** A loan that ends on its reporting date. *)
Definition matured_loan : Loan :=
  mkLoan (mkTimestamp 2024 6 30) "M-1" "IDR" 1000000 (12 # 100)
         (mkTimestamp 2023 1 1) (mkTimestamp 2024 6 30) "no" "annuity".

(** A bullet loan of 1,200,000 at 12% with four payment dates, the first
    one ten days after the reporting date. *)
Definition bullet_loan_four : Loan :=
  mkLoan (mkTimestamp 2024 1 10) "B-4" "IDR" 1200000 (12 # 100)
         (mkTimestamp 2023 1 1) (mkTimestamp 2024 4 20) "no" "annuity".

(** ** Further definitions of [model.py] and of the frames *)

(** [Loan.tenor_days] *)
Definition tenor_days (loan : Loan) : Z :=
  days_between (end_date loan) (reporting_date loan).

(** [Loan.tenor_months] *)
Definition tenor_months (loan : Loan) : Z :=
  (year (end_date loan) - year (reporting_date loan)) * 12
  + (month (end_date loan) - month (reporting_date loan)).

(** The (label, value) cells of a frame, in order. *)
Definition frame_cells (f : BucketFrame) : list (string * Q) :=
  match f with Tall rows => rows | Flat columns => columns end.

(** The six bucket operations, each with the labels of its taxonomy. *)
Definition bucket_operations
    : list ((Loan -> string -> result BucketFrame) * list string) :=
  [(get_bucket_irrbb, irrbb_labels);
   (get_bucket_lcr, BucketLCR.LABELS);
   (get_bucket_nsfr, BucketNSFR.LABELS);
   (get_bucket_irrbb_flat, irrbb_labels);
   (get_bucket_lcr_flat, BucketLCR.LABELS);
   (get_bucket_nsfr_flat, BucketNSFR.LABELS)].

(** A loan without interest. *)
Definition zero_rate_loan : Loan :=
  mkLoan (mkTimestamp 2024 1 1) "Z-1" "IDR" 1000 0
         (mkTimestamp 2023 1 1) (mkTimestamp 2024 4 1) "no" "flat".

(** ** The binary64 model

    The definitions above read the arithmetic of [schedule] and of the
    aggregations over exact rationals; they are used for the properties
    that depend on the order and the sign of amounts only.  The module
    [B64] gives the same functions on the numbers the code computes with:
    Python floats and NumPy float64 scalars, that is IEEE 754 binary64 with
    rounding to nearest, ties to even.  A loan's [outstanding] and
    [interest_rate] are Python floats (a Python int below 2^53 behaves as
    the float of the same value in every operation of [schedule]). *)

Module B64.

(** The rational number that a finite float is; 0 for the others. *)
Definition exact (x : float) : Q :=
  match Prim2SF x with
  | S754_finite s m e => (inject_Z (if s then Z.neg m else Z.pos m) * 2 ^ e)%Q
  | _ => 0%Q
  end.

(** The float of an integer (exact below 2^53 in absolute value). *)
Definition of_Z (z : Z) : float :=
  match z with
  | Z0 => 0%float
  | Zpos p => SF2Prim (S754_finite false p 0)
  | Zneg p => SF2Prim (S754_finite true p 0)
  end.

(** The float nearest to [z / 100]: the Python literal with two decimals. *)
Definition cents (z : Z) : float := (of_Z z / 100)%float.

(** Python's [round(x, 2)] on a float: the exact value of [x] is rounded to
    a whole number of cents, ties to the even one, and the result is the
    float nearest to that decimal, with the sign of [x]; an infinity or a
    NaN is returned as it is.  From 2^46 on the floats are more than a
    cent apart and the float nearest to the rounded decimal is [x]
    itself. *)
Definition round (x : float) : float :=
  if is_finite x then
    if (0x1p46 <=? abs x)%float then x
    else
      let y := cents (round_half_even (Qabs (exact x) * 100)) in
      if get_sign x then (- y)%float else y
  else x.

(** [np.rint]: the nearest integer, ties to the even one, with the sign of
    [x]; from 2^52 on, and for an infinity or a NaN, [x] itself. *)
Definition rint (x : float) : float :=
  if is_finite x then
    if (0x1p52 <=? abs x)%float then x
    else
      let y := of_Z (round_half_even (Qabs (exact x))) in
      if get_sign x then (- y)%float else y
  else x.

(** [round(x, 2)] on a NumPy float64 scalar, which is [np.round(x, 2)]:
    multiply by 100, [rint], divide by 100. *)
Definition np_round (x : float) : float := (rint (x * 100) / 100)%float.

(** [max(balance, 0)]: the int 0 when [0 > balance], else [balance]. *)
Definition py_max (balance : float) : float :=
  if (balance <? 0)%float then 0%float else balance.

Record Loan := mkLoan {
  reporting_date : Timestamp;
  account_id : string;
  currency : string;
  outstanding : float;
  interest_rate : float;
  start_date : Timestamp;
  end_date : Timestamp;
  installment : string;
  method : string
}.

Record ScheduleRow := mkRow {
  period : nat;
  payment_date : Timestamp;
  payment : float;
  principal : float;
  interest : float;
  remaining_balance : float
}.

(** [x ** n] of NumPy for a float64 base and an integer exponent is C's
    [pow(x, n)].  C fixes [pow(1, y) = 1] for every [y] (Annex F); the
    other values are those of the platform's [pow], which the model
    takes as the parameter [libm_pow]. *)
Definition np_power (libm_pow : float -> float -> float) (x : float) (n : nat)
    : float :=
  if (x =? 1)%float then 1%float
  else libm_pow x (of_Z (Z.of_nat n)).

(** [numpy_financial.pmt(rate, nper, pv)] with [fv = 0] and
    [when = 'end'] (0), for [rate != 0]. *)
Definition npf_pmt (libm_pow : float -> float -> float)
    (rate : float) (nper : nat) (pv : float) : float :=
  let temp := np_power libm_pow (1 + rate)%float nper in
  let fact := ((1 + rate * 0) * (temp - 1) / rate)%float in
  (- (0 + pv * temp) / fact)%float.

Definition annuity_pmt (libm_pow : float -> float -> float)
    (r : float) (periods : nat) (principal_ : float) : float :=
  if negb (r =? 0)%float then npf_pmt libm_pow r periods (- principal_)%float
  else (principal_ / of_Z (Z.of_nat periods))%float.

Fixpoint bullet_rows (principal_ monthly_interest : float) (periods : nat)
    (i : nat) (balance : float) (payment_dates : list Timestamp)
    : list ScheduleRow :=
  match payment_dates with
  | [] => []
  | pay_date :: rest =>
      let principal_payment :=
        if (i =? periods)%nat then principal_ else 0%float in
      let interest_ := monthly_interest in
      let payment_ := (principal_payment + interest_)%float in
      let balance := (balance - principal_payment)%float in
      mkRow i pay_date (round payment_) (round principal_payment)
            (round interest_) (round (py_max balance))
      :: bullet_rows principal_ monthly_interest periods (S i) balance rest
  end.

(** [round(x, 2)] on a NumPy scalar ([numpy = true]) or on a Python
    float. *)
Definition round_as (numpy : bool) (x : float) : float :=
  if numpy then np_round x else round x.

(** The annuity loop.  With [r != 0] the payment comes from NumPy, so
    [pmt], the principal payment and the balance are NumPy scalars
    ([numpy = true]); the interest is a NumPy scalar once the balance is,
    from the second period on ([numpy_balance]). *)
Fixpoint annuity_rows (numpy : bool) (r pmt : float) (i : nat)
    (balance : float) (numpy_balance : bool)
    (payment_dates : list Timestamp) : list ScheduleRow :=
  match payment_dates with
  | [] => []
  | pay_date :: rest =>
      let interest_ := (balance * r)%float in
      let principal_payment := (pmt - interest_)%float in
      let balance := (balance - principal_payment)%float in
      mkRow i pay_date (round_as numpy pmt) (round_as numpy principal_payment)
            (round_as numpy_balance interest_)
            (round_as numpy (py_max balance))
      :: annuity_rows numpy r pmt (S i) balance numpy rest
  end.

Fixpoint flat_rows (monthly_principal monthly_interest payment_ : float)
    (i : nat) (balance : float) (payment_dates : list Timestamp)
    : list ScheduleRow :=
  match payment_dates with
  | [] => []
  | pay_date :: rest =>
      let balance := (balance - monthly_principal)%float in
      mkRow i pay_date (round payment_) (round monthly_principal)
            (round monthly_interest) (round (py_max balance))
      :: flat_rows monthly_principal monthly_interest payment_ (S i) balance rest
  end.

(** [Amortization.schedule] *)
Definition schedule (libm_pow : float -> float -> float) (loan : Loan)
    : result (list ScheduleRow) :=
  let principal_ := outstanding loan in
  let annual_rate := interest_rate loan in
  let method_ := lower (method loan) in
  let installment_ := lower (installment loan) in
  let payment_dates :=
    generate_payment_dates (reporting_date loan) (end_date loan) in
  let periods := length payment_dates in
  if Timestamp_le (end_date loan) (reporting_date loan) then Ok []
  else
    let r := (annual_rate / 12)%float in
    let balance := principal_ in
    if String.eqb installment_ "no" then
      let monthly_interest := (principal_ * r)%float in
      Ok (bullet_rows principal_ monthly_interest periods 1 balance payment_dates)
    else if String.eqb installment_ "yes" then
      if String.eqb method_ "annuity" then
        let pmt := annuity_pmt libm_pow r periods principal_ in
        Ok (annuity_rows (negb (r =? 0)%float) r pmt 1 balance false
                         payment_dates)
      else if String.eqb method_ "flat" then
        let monthly_principal :=
          (principal_ / of_Z (Z.of_nat periods))%float in
        let monthly_interest := (principal_ * r)%float in
        let payment_ := (monthly_principal + monthly_interest)%float in
        Ok (flat_rows monthly_principal monthly_interest payment_ 1 balance
                      payment_dates)
      else Err InvalidMethod
    else Err InvalidInstallmentFlag.

(** The unrounded interest, principal payment and balance of the annuity
    loop, period by period. *)
Fixpoint annuity_trace (r pmt : float) (balance : float) (n : nat)
    : list (float * float * float) :=
  match n with
  | O => []
  | S n' =>
      let interest_ := (balance * r)%float in
      let principal_payment := (pmt - interest_)%float in
      let balance := (balance - principal_payment)%float in
      (interest_, principal_payment, balance) :: annuity_trace r pmt balance n'
  end.

(** The balance of the flat loop after [i] periods. *)
Definition flat_balance (principal_ monthly_principal : float) (i : nat)
    : float :=
  Nat.iter i (fun balance => (balance - monthly_principal)%float) principal_.

(** One step of the compensated (Kahan) summation of pandas' [group_sum],
    on the pair of the running sum and its compensation; a NaN value is
    skipped. *)
Definition kahan_add (acc : float * float) (val : float) : float * float :=
  if is_nan val then acc
  else
    let '(sumx, compensation) := acc in
    let y := (val - compensation)%float in
    let t := (sumx + y)%float in
    let compensation := (t - sumx - y)%float in
    (t, if is_nan compensation then 0%float else compensation).

Definition kahan_sum (vals : list float) : float :=
  (foldl kahan_add (0%float, 0%float) vals).1.

(** [df.groupby("bucket")["value"].sum()] on a float64 column. *)
Definition groupby_sum (df : list (string * float))
    : gmap string (float * float) :=
  foldl (fun acc '(bucket, value) =>
           <[bucket := kahan_add (default (0%float, 0%float) (acc !! bucket))
                                 value]> acc) ∅ df.

(** [.reindex(labels, fill_value=0)] *)
Definition reindex (labels : list string) (s : gmap string (float * float))
    : list (string * float) :=
  (fun l => (l, (default (0%float, 0%float) (s !! l)).1)) <$> labels.

Definition irrbb_bucket (reporting_date : Timestamp) (row : ScheduleRow)
    : string :=
  let days := days_between (payment_date row) reporting_date in
  let months := months_between (payment_date row) reporting_date in
  let mask_1m := days <=? 30 in
  if mask_1m then "≤ 1 bulan"
  else astype_str (pd_cut months BucketIRRBB.MONTH_EDGES
                          BucketIRRBB.MONTH_LABELS true).

Definition lcr_bucket (reporting_date : Timestamp) (row : ScheduleRow)
    : string :=
  let days := days_between (payment_date row) reporting_date in
  if days <=? 30 then "≤30D" else ">30D".

Definition nsfr_bucket (reporting_date : Timestamp) (row : ScheduleRow)
    : string :=
  let months := months_between (payment_date row) reporting_date in
  if months <? 6 then "<6M"
  else if (months >=? 6) && (months <=? 12) then "6-12M"
  else if months >? 12 then ">12M"
  else ">12M".

(** The [value] column of the tall operations. *)
Definition plain_value (value_type : string) (row : ScheduleRow) : float :=
  if String.eqb value_type "principal" then principal row
  else if String.eqb value_type "interest" then interest row
  else (principal row + interest row)%float.

(** The tall frame of [_empty_bucket_result]. *)
Definition empty_cells (labels : list string) : list (string * float) :=
  zip labels (replicate (length labels) 0%float).

(** The tall results: the rows (bucket, value) of the frame. *)
Definition get_bucket_irrbb (libm_pow : float -> float -> float)
    (loan : Loan) (value_type : string) : result (list (string * float)) :=
  match schedule libm_pow loan with
  | Err e => Err e
  | Ok [] => Ok (empty_cells irrbb_labels)
  | Ok df =>
      let df := (fun row => (irrbb_bucket (reporting_date loan) row,
                             plain_value value_type row)) <$> df in
      Ok (reindex irrbb_labels (groupby_sum df))
  end.

Definition get_bucket_lcr (libm_pow : float -> float -> float)
    (loan : Loan) (value_type : string) : result (list (string * float)) :=
  match schedule libm_pow loan with
  | Err e => Err e
  | Ok [] => Ok (empty_cells ["≤30D"; ">30D"])
  | Ok df =>
      let df := (fun row => (lcr_bucket (reporting_date loan) row,
                             plain_value value_type row)) <$> df in
      Ok (reindex ["≤30D"; ">30D"] (groupby_sum df))
  end.

Definition get_bucket_nsfr (libm_pow : float -> float -> float)
    (loan : Loan) (value_type : string) : result (list (string * float)) :=
  match schedule libm_pow loan with
  | Err e => Err e
  | Ok [] => Ok (empty_cells ["<6M"; "6-12M"; ">12M"])
  | Ok df =>
      let df := (fun row => (nsfr_bucket (reporting_date loan) row,
                             plain_value value_type row)) <$> df in
      Ok (reindex ["<6M"; "6-12M"; ">12M"] (groupby_sum df))
  end.

(** The left-to-right sum of floats. *)
Definition fsum (xs : list float) : float := foldl PrimFloat.add 0%float xs.

(** An amount that [round] can change: finite, not negative, below 2^46. *)
Definition amount (x : float) : bool :=
  is_finite x && negb (get_sign x) && negb (0x1p46 <=? abs x)%float.


(** *** Example loans *)

(** A bullet loan of 0.125 with two payment dates. *)
Definition bullet_loan_eighth : Loan :=
  mkLoan (mkTimestamp 2024 1 1) "B-1" "IDR" 0.125 0
         (mkTimestamp 2023 1 1) (mkTimestamp 2024 3 1) "no" "annuity".

(** A bullet loan of 12345 at 6% with three payment dates. *)
Definition bullet_loan_example : Loan :=
  mkLoan (mkTimestamp 2024 1 1) "B-2" "IDR" (of_Z 12345) (cents 6)
         (mkTimestamp 2023 1 1) (mkTimestamp 2024 4 1) "no" "annuity".

(** The same loan with twelve payment dates. *)
Definition bullet_loan_year : Loan :=
  mkLoan (mkTimestamp 2024 1 1) "B-3" "IDR" (of_Z 12345) (cents 6)
         (mkTimestamp 2023 1 1) (mkTimestamp 2025 1 1) "no" "annuity".

(** A flat loan of 1 over three periods. *)
Definition flat_loan_thirds : Loan :=
  mkLoan (mkTimestamp 2024 1 1) "F-1" "IDR" 1 0
         (mkTimestamp 2023 1 1) (mkTimestamp 2024 4 1) "yes" "flat".

(** The flat loan of the specification's example. *)
Definition flat_loan_example : Loan :=
  mkLoan (mkTimestamp 2024 1 1) "F-2" "IDR" (of_Z 1200000) (cents 12)
         (mkTimestamp 2023 1 1) (mkTimestamp 2025 1 1) "yes" "flat".

(** A flat loan of 10^13 at 12% over 36 periods. *)
Definition flat_loan_large : Loan :=
  mkLoan (mkTimestamp 2024 1 1) "F-3" "IDR" (of_Z (10 ^ 13)) (cents 12)
         (mkTimestamp 2023 1 1) (mkTimestamp 2027 1 1) "yes" "flat".


(** An annuity loan of 1,200,000 at 12% over three periods. *)
Definition annuity_loan_example : Loan :=
  mkLoan (mkTimestamp 2024 1 1) "A-3" "IDR" (of_Z 1200000) (cents 12)
         (mkTimestamp 2023 1 1) (mkTimestamp 2024 4 1) "yes" "annuity".


End B64.

(** The dates and the flags of a loan, which the two readings of a loan
    share. *)
Definition same_terms (loan : Loan) (loan64 : B64.Loan) : Prop :=
  reporting_date loan = B64.reporting_date loan64
  /\ end_date loan = B64.end_date loan64
  /\ installment loan = B64.installment loan64
  /\ method loan = B64.method loan64.

(** * Proofs *)

(** *** Termination of the loop *)

Lemma next_month_measure end_date y m y' m' :
  next_month y m = (y', m') ->
  loop_measure end_date y' m' = loop_measure end_date y m - 1.
Proof.
  unfold next_month, loop_measure.
  destruct (Z.gtb_spec (m + 1) 12); intros [= <- <-]; lia.
Qed.

Lemma Timestamp_gt_later_year d e :
  year e < year d -> Timestamp_gt d e = true.
Proof.
  intros H. unfold Timestamp_gt.
  destruct (Z.gtb_spec (year d) (year e)); [reflexivity | lia].
Qed.

Lemma payment_dates_loop_terminates fuel anchor_day end_date :
  forall y m,
    Z.max 0 (loop_measure end_date y m) < Z.of_nat fuel ->
    is_Some (payment_dates_loop fuel anchor_day end_date y m).
Proof.
  induction fuel as [|fuel IH]; intros y m Hfuel; [lia|].
  cbn [payment_dates_loop].
  destruct (Timestamp_gt _ end_date) eqn:Hgt; [eexists; reflexivity|].
  destruct (next_month y m) as [y' m'] eqn:Hnext.
  assert (Hy : y <= year end_date).
  { destruct (Z.le_gt_cases y (year end_date)) as [|Hlt]; [assumption|].
    rewrite Timestamp_gt_later_year in Hgt by (cbn; lia). discriminate. }
  pose proof (next_month_measure end_date _ _ _ _ Hnext) as Hm.
  destruct (IH y' m') as [ds Hds].
  - unfold loop_measure in *. lia.
  - rewrite Hds. eexists; reflexivity.
Qed.

Lemma payment_dates_loop_fuel_mono fuel anchor_day end_date :
  forall y m ds k,
    payment_dates_loop fuel anchor_day end_date y m = Some ds ->
    payment_dates_loop (fuel + k) anchor_day end_date y m = Some ds.
Proof.
  induction fuel as [|fuel IH]; intros y m ds k; [discriminate|].
  cbn [payment_dates_loop Nat.add].
  destruct (Timestamp_gt _ end_date); [trivial|].
  destruct (next_month y m) as [y' m'].
  destruct (payment_dates_loop fuel _ _ y' m') as [ds'|] eqn:Hrec; [|discriminate].
  intros [= <-]. rewrite (IH _ _ _ k Hrec). reflexivity.
Qed.

(** The fuel chosen by [generate_payment_dates] is always enough: the loop
    reaches its [break]. *)
Lemma generate_payment_dates_loop reporting_date end_date :
  let '(y, m) := first_month reporting_date end_date in
  payment_dates_loop (loop_fuel end_date y m) (day end_date) end_date y m
  = Some (generate_payment_dates reporting_date end_date).
Proof.
  unfold generate_payment_dates.
  destruct (first_month reporting_date end_date) as [y m].
  destruct (payment_dates_loop_terminates (loop_fuel end_date y m)
              (day end_date) end_date y m) as [ds Hds].
  - unfold loop_fuel. lia.
  - rewrite Hds. reflexivity.
Qed.

(** *** What the loop emits *)

Lemma next_month_index y m y' m' :
  valid_month m -> next_month y m = (y', m') ->
  valid_month m' /\ y' * 12 + m' = y * 12 + m + 1.
Proof.
  unfold next_month, valid_month.
  destruct (Z.gtb_spec (m + 1) 12); intros Hm [= <- <-]; lia.
Qed.

Lemma payment_dates_loop_lookup fuel anchor_day end_date :
  forall y m ds,
    valid_month m ->
    payment_dates_loop fuel anchor_day end_date y m = Some ds ->
    forall (i : nat) d, ds !! i = Some d ->
      year d * 12 + month d = y * 12 + m + Z.of_nat i
      /\ valid_month (month d)
      /\ day d = Z.min anchor_day (monthrange (year d) (month d))
      /\ Timestamp_gt d end_date = false.
Proof.
  induction fuel as [|fuel IH]; intros y m ds Hm; [discriminate|].
  cbn [payment_dates_loop].
  destruct (Timestamp_gt _ end_date) eqn:Hgt.
  { intros [= <-] i d Hi. rewrite lookup_nil in Hi. discriminate. }
  destruct (next_month y m) as [y' m'] eqn:Hnext.
  destruct (payment_dates_loop fuel _ _ y' m') as [ds'|] eqn:Hrec; [|discriminate].
  intros [= <-] [|i] d Hi; cbn in Hi.
  - injection Hi as <-. cbn. repeat split; try assumption; try lia; apply Hm.
  - destruct (next_month_index _ _ _ _ Hm Hnext) as [Hm' Hidx].
    destruct (IH _ _ _ Hm' Hrec i d Hi) as (H1 & H2 & H3 & H4).
    repeat split; try assumption; try apply H2. lia.
Qed.

Lemma first_month_valid reporting_date end_date y m :
  valid_month (month reporting_date) ->
  first_month reporting_date end_date = (y, m) -> valid_month m.
Proof.
  unfold first_month. intros Hm.
  destruct (day reporting_date >=? day end_date).
  - intros Hn. apply (next_month_index _ _ _ _ Hm Hn).
  - intros [= <- <-]. exact Hm.
Qed.

Lemma generate_payment_dates_lookup reporting_date end_date (i : nat) d :
  valid_month (month reporting_date) ->
  generate_payment_dates reporting_date end_date !! i = Some d ->
  let '(y, m) := first_month reporting_date end_date in
  year d * 12 + month d = y * 12 + m + Z.of_nat i
  /\ valid_month (month d)
  /\ day d = Z.min (day end_date) (monthrange (year d) (month d))
  /\ Timestamp_gt d end_date = false.
Proof.
  intros Hm Hi.
  pose proof (generate_payment_dates_loop reporting_date end_date) as Hloop.
  pose proof (first_month_valid reporting_date end_date) as Hv.
  destruct (first_month reporting_date end_date) as [y m].
  exact (payment_dates_loop_lookup _ _ _ _ _ _ (Hv _ _ Hm eq_refl) Hloop i d Hi).
Qed.

Lemma Timestamp_gt_month_index a b :
  valid_month (month a) -> valid_month (month b) ->
  year a * 12 + month a < year b * 12 + month b ->
  Timestamp_gt b a = true.
Proof.
  unfold valid_month, Timestamp_gt. intros Ha Hb Hidx.
  destruct (Z.gtb_spec (year b) (year a)); [reflexivity|].
  destruct (Z.eqb_spec (year b) (year a)); [|lia].
  destruct (Z.gtb_spec (month b) (month a)); [reflexivity|lia].
Qed.

Lemma first_month_cases reporting_date end_date :
  valid_month (month reporting_date) ->
  first_month reporting_date end_date =
    if day reporting_date >=? day end_date
    then (if month reporting_date =? 12
          then (year reporting_date + 1, 1)
          else (year reporting_date, month reporting_date + 1))
    else (year reporting_date, month reporting_date).
Proof.
  unfold first_month, next_month, valid_month. intros Hm.
  destruct (day reporting_date >=? day end_date); [|reflexivity].
  destruct (Z.gtb_spec (month reporting_date + 1) 12);
    destruct (Z.eqb_spec (month reporting_date) 12); try lia; reflexivity.
Qed.

(** C2. The payment dates: every date has the anchor day clamped to its
    month, the dates are strictly increasing and consecutive ones are one
    calendar month apart, none is after [end_date], and the first one lies
    in the month after [reporting_date]'s (with year carry) when
    [reporting_date.day >= end_date.day], and in [reporting_date]'s month
    otherwise. *)
Theorem generate_payment_dates_spec reporting_date end_date :
  valid_date reporting_date ->
  let ds := generate_payment_dates reporting_date end_date in
  (forall d, d ∈ ds ->
     day d = Z.min (day end_date) (monthrange (year d) (month d)))
  /\ (forall (i j : nat) a b, (i < j)%nat -> ds !! i = Some a -> ds !! j = Some b ->
        Timestamp_gt b a = true)
  /\ (forall (i : nat) a b, ds !! i = Some a -> ds !! S i = Some b ->
        months_between b a = 1)
  /\ (forall d, d ∈ ds -> Timestamp_le d end_date = true)
  /\ (forall d, ds !! 0%nat = Some d ->
        (year d, month d) =
          if day reporting_date >=? day end_date
          then (if month reporting_date =? 12
                then (year reporting_date + 1, 1)
                else (year reporting_date, month reporting_date + 1))
          else (year reporting_date, month reporting_date)).
Proof.
  intros [Hm _] ds.
  assert (Hlk : forall (i : nat) d, ds !! i = Some d ->
            let '(y, m) := first_month reporting_date end_date in
            year d * 12 + month d = y * 12 + m + Z.of_nat i
            /\ valid_month (month d)
            /\ day d = Z.min (day end_date) (monthrange (year d) (month d))
            /\ Timestamp_gt d end_date = false).
  { intros i d. apply generate_payment_dates_lookup, Hm. }
  pose proof (first_month_valid reporting_date end_date) as Hfv.
  pose proof (first_month_cases reporting_date end_date Hm) as Hfc.
  destruct (first_month reporting_date end_date) as [y m].
  specialize (Hfv y m Hm eq_refl).
  repeat split.
  - intros d [i Hi]%list_elem_of_lookup. apply (Hlk i d Hi).
  - intros i j a b Hij Ha Hb.
    destruct (Hlk i a Ha) as (Ia & Va & _). destruct (Hlk j b Hb) as (Ib & Vb & _).
    apply Timestamp_gt_month_index; try assumption. lia.
  - intros i a b Ha Hb.
    destruct (Hlk i a Ha) as (Ia & _). destruct (Hlk (S i) b Hb) as (Ib & _).
    unfold months_between. lia.
  - intros d [i Hi]%list_elem_of_lookup. unfold Timestamp_le.
    destruct (Hlk i d Hi) as (_ & _ & _ & ->). reflexivity.
  - intros d Hd. destruct (Hlk 0%nat d Hd) as (Id & Vd & _).
    rewrite <- Hfc. unfold valid_month in *. f_equal; lia.
Qed.

Lemma generate_payment_dates_spec_witness :
  valid_date (mkTimestamp 2024 1 31)
  /\ forall d,
       d ∈ generate_payment_dates (mkTimestamp 2024 1 31) (mkTimestamp 2024 5 31) ->
       day d = Z.min 31 (monthrange (year d) (month d)).
Proof.
  assert (H : valid_date (mkTimestamp 2024 1 31)).
  { unfold valid_date, valid_month. vm_compute. intuition discriminate. }
  split; [exact H|].
  exact (proj1 (generate_payment_dates_spec (mkTimestamp 2024 1 31)
                  (mkTimestamp 2024 5 31) H)).
Defined.

(** *** A loan that ends after the reporting date has a payment date *)

Lemma Timestamp_gt_true a b :
  Timestamp_gt a b = true
  <-> year b < year a
      \/ (year a = year b
          /\ (month b < month a \/ (month a = month b /\ day b < day a))).
Proof.
  unfold Timestamp_gt.
  destruct (Z.gtb_spec (year a) (year b)), (Z.eqb_spec (year a) (year b)),
    (Z.gtb_spec (month a) (month b)), (Z.eqb_spec (month a) (month b)),
    (Z.gtb_spec (day a) (day b)); cbn; split; try reflexivity; try discriminate;
    lia.
Qed.

Lemma Timestamp_gt_false a b :
  Timestamp_gt a b = false
  <-> year a < year b
      \/ (year a = year b
          /\ (month a < month b \/ (month a = month b /\ day a <= day b))).
Proof.
  pose proof (Timestamp_gt_true a b) as H.
  destruct (Timestamp_gt a b).
  - split; [discriminate|]. intros Hlt. exfalso.
    destruct H as [H _]. specialize (H eq_refl). lia.
  - split; [|reflexivity]. intros _.
    destruct (Z.lt_trichotomy (year a) (year b)) as [?|[?|?]];
      destruct (Z.lt_trichotomy (month a) (month b)) as [?|[?|?]];
      destruct (Z.le_gt_cases (day a) (day b));
      try lia; exfalso;
      assert (Habs : false = true) by (apply H; lia); discriminate.
Qed.

Lemma first_date_not_after reporting_date end_date y m :
  valid_date reporting_date -> valid_date end_date ->
  Timestamp_le end_date reporting_date = false ->
  first_month reporting_date end_date = (y, m) ->
  Timestamp_gt (mkTimestamp y m (Z.min (day end_date) (monthrange y m)))
               end_date = false.
Proof.
  intros [Hrm Hrd] [Hem Hed] Hle.
  rewrite (first_month_cases _ _ Hrm).
  unfold Timestamp_le in Hle. apply negb_false_iff, Timestamp_gt_true in Hle.
  intros Hfirst. apply Timestamp_gt_false. cbn [year month day].
  generalize dependent (monthrange y m). intros last_day.
  unfold valid_month in *.
  destruct (Z.geb_spec (day reporting_date) (day end_date));
    [destruct (Z.eqb_spec (month reporting_date) 12)|];
    injection Hfirst as <- <-; lia.
Qed.

Lemma generate_payment_dates_nonempty reporting_date end_date :
  valid_date reporting_date -> valid_date end_date ->
  Timestamp_le end_date reporting_date = false ->
  (1 <= length (generate_payment_dates reporting_date end_date))%nat.
Proof.
  intros Hr He Hle.
  pose proof (generate_payment_dates_loop reporting_date end_date) as Hloop.
  pose proof (first_date_not_after reporting_date end_date) as Hfirst.
  destruct (first_month reporting_date end_date) as [y m].
  specialize (Hfirst y m Hr He Hle eq_refl).
  unfold loop_fuel in Hloop. cbn [payment_dates_loop] in Hloop.
  rewrite Hfirst in Hloop.
  destruct (next_month y m) as [y' m'].
  destruct (payment_dates_loop _ _ _ y' m') as [ds|]; [|discriminate].
  injection Hloop as <-. cbn. lia.
Qed.

(** ** Rounding and [max] respect the equality of rationals *)

Lemma round_half_even_comp x y : (x == y)%Q -> round_half_even x = round_half_even y.
Proof.
  intros Hxy. unfold round_half_even.
  rewrite (Qfloor_comp _ _ Hxy).
  assert (Hc : Qcompare (x - inject_Z (Qfloor y)) (1 # 2)
               = Qcompare (y - inject_Z (Qfloor y)) (1 # 2)).
  { apply Qcompare_comp; [rewrite Hxy|]; reflexivity. }
  rewrite Hc. reflexivity.
Qed.

Lemma round2_comp x y : (x == y)%Q -> round2 x = round2 y.
Proof.
  intros Hxy. unfold round2.
  rewrite (round_half_even_comp (x * 100) (y * 100)); [reflexivity|].
  rewrite Hxy. reflexivity.
Qed.

Lemma round2_0 : round2 0 = 0%Q.
Proof. reflexivity. Qed.

Lemma py_max_comp a b : (a == b)%Q -> (py_max a 0 == py_max b 0)%Q.
Proof.
  intros Hab. unfold py_max.
  rewrite (Qcompare_comp 0%Q 0%Q (Qeq_refl 0%Q) a b Hab).
  destruct (Qcompare 0 b); [assumption | assumption | reflexivity].
Qed.

Lemma round2_py_max_comp a b :
  (a == b)%Q -> round2 (py_max a 0) = round2 (py_max b 0).
Proof. intros H. apply round2_comp, py_max_comp, H. Qed.

(** ** The three loops of [schedule] *)


Lemma bullet_rows_lookup P mi periods ds :
  forall i b (k : nat) row,
    (i + length ds = S periods)%nat ->
    (b == P)%Q ->
    bullet_rows P mi periods i b ds !! k = Some row ->
    period row = (i + k)%nat
    /\ ds !! k = Some (payment_date row)
    /\ payment row
       = round2 ((if (i + k =? periods)%nat then P else 0) + mi)
    /\ principal row = (if (i + k =? periods)%nat then round2 P else 0%Q)
    /\ interest row = round2 mi
    /\ remaining_balance row
       = (if (i + k =? periods)%nat then 0%Q else round2 (py_max P 0)).
Proof.
  induction ds as [|d ds IH]; intros i b k row Hlen Hb; cbn [bullet_rows].
  { rewrite lookup_nil. discriminate. }
  cbn [length] in Hlen.
  destruct k as [|k]; cbn [lookup list_lookup].
  - intros [= <-]. cbn [period payment_date payment principal interest
                         remaining_balance].
    rewrite Nat.add_0_r. repeat split.
    + destruct (i =? periods)%nat; reflexivity.
    + destruct (Nat.eqb_spec i periods) as [->|Hne].
      * transitivity (round2 (py_max 0 0)); [|reflexivity].
        apply round2_py_max_comp. rewrite Hb. ring.
      * apply round2_py_max_comp. rewrite Hb. ring.
  - intros Hrow.
    destruct (Nat.eqb_spec i periods) as [->|Hne].
    { assert (ds = []) as -> by (destruct ds; [reflexivity | cbn in Hlen; lia]).
      cbn in Hrow. discriminate. }
    specialize (IH (S i) (b - 0)%Q k row).
    replace (S i + k)%nat with (i + S k)%nat in IH by lia.
    apply IH; [lia | rewrite Hb; ring | exact Hrow].
Qed.


Lemma flat_rows_lookup mp mi pay ds :
  forall i b (k : nat) row,
    flat_rows mp mi pay i b ds !! k = Some row ->
    period row = (i + k)%nat
    /\ ds !! k = Some (payment_date row)
    /\ payment row = round2 pay
    /\ principal row = round2 mp
    /\ interest row = round2 mi
    /\ remaining_balance row
       = round2 (py_max (b - inject_Z (Z.of_nat (S k)) * mp) 0).
Proof.
  induction ds as [|d ds IH]; intros i b k row; cbn [flat_rows].
  { rewrite lookup_nil. discriminate. }
  destruct k as [|k]; cbn [lookup list_lookup].
  - intros [= <-]. cbn [period payment_date payment principal interest
                         remaining_balance].
    rewrite Nat.add_0_r. repeat split.
    apply round2_py_max_comp. change (inject_Z (Z.of_nat 1)) with 1%Q. ring.
  - intros Hrow. destruct (IH (S i) (b - mp)%Q k row Hrow)
      as (Hp & Hd & Hpay & Hpr & Hint & Hbal).
    repeat split; try assumption; [lia|].
    rewrite Hbal. apply round2_py_max_comp.
    rewrite (Nat2Z.inj_succ (S k)). unfold Z.succ. rewrite inject_Z_plus.
    change (inject_Z 1) with 1%Q. ring.
Qed.

Lemma annuity_rows_lookup r pmt ds :
  forall i b (k : nat) row,
    annuity_rows r pmt i b ds !! k = Some row ->
    period row = (i + k)%nat
    /\ ds !! k = Some (payment_date row)
    /\ payment row = round2 pmt
    /\ exists interest_ principal_payment balance,
         annuity_trace r pmt b (length ds) !! k
         = Some (interest_, principal_payment, balance)
         /\ interest row = round2 interest_
         /\ principal row = round2 principal_payment
         /\ remaining_balance row = round2 (py_max balance 0).
Proof.
  induction ds as [|d ds IH]; intros i b k row; cbn [annuity_rows].
  { rewrite lookup_nil. discriminate. }
  destruct k as [|k]; cbn [lookup list_lookup length annuity_trace].
  - intros [= <-]. cbn [period payment_date payment principal interest
                         remaining_balance].
    rewrite Nat.add_0_r. repeat split.
    eexists _, _, _. repeat split.
  - intros Hrow. destruct (IH (S i) _ k row Hrow) as (Hp & Hd & Hpay & Htr).
    repeat split; try assumption. lia.
Qed.

(** ** The branches of [schedule] *)

Lemma schedule_empty loan :
  Timestamp_le (end_date loan) (reporting_date loan) = true ->
  schedule loan = Ok [].
Proof. intros H. unfold schedule. rewrite H. reflexivity. Qed.

(** ** Annuity loans over the rationals *)


Lemma annuity_pmt_zero_rate r N P :
  (r == 0)%Q -> annuity_pmt r N P = (P / inject_Z (Z.of_nat N))%Q.
Proof.
  intros Hr. unfold annuity_pmt.
  apply Qeq_bool_iff in Hr. rewrite Hr. reflexivity.
Qed.











(** ** Errors of [schedule] *)

Lemma lower_ascii_idempotent c : lower_ascii (lower_ascii c) = lower_ascii c.
Proof. destruct c as [[] [] [] [] [] [] [] []]; reflexivity. Qed.

Lemma lower_idempotent s : lower (lower s) = lower s.
Proof.
  induction s as [|c s IH]; cbn; [reflexivity|].
  rewrite lower_ascii_idempotent, IH. reflexivity.
Qed.

Lemma schedule_result loan :
  schedule loan =
    if Timestamp_le (end_date loan) (reporting_date loan) then Ok []
    else if String.eqb (lower (installment loan)) "no" then
      Ok (bullet_rows (outstanding loan)
            (outstanding loan * (interest_rate loan / 12))
            (length (generate_payment_dates (reporting_date loan) (end_date loan)))
            1 (outstanding loan)
            (generate_payment_dates (reporting_date loan) (end_date loan)))
    else if String.eqb (lower (installment loan)) "yes" then
      if String.eqb (lower (method loan)) "annuity" then
        Ok (annuity_rows (interest_rate loan / 12)
              (annuity_pmt (interest_rate loan / 12)
                 (length (generate_payment_dates (reporting_date loan)
                            (end_date loan)))
                 (outstanding loan))
              1 (outstanding loan)
              (generate_payment_dates (reporting_date loan) (end_date loan)))
      else if String.eqb (lower (method loan)) "flat" then
        let N := inject_Z (Z.of_nat
                   (length (generate_payment_dates (reporting_date loan)
                              (end_date loan)))) in
        Ok (flat_rows (outstanding loan / N)
              (outstanding loan * (interest_rate loan / 12))
              (outstanding loan / N
               + outstanding loan * (interest_rate loan / 12))
              1 (outstanding loan)
              (generate_payment_dates (reporting_date loan) (end_date loan)))
      else Err InvalidMethod
    else Err InvalidInstallmentFlag.
Proof. reflexivity. Qed.

(** C9, as stated, fails.  A loan that ends on its reporting date with
    [installment = "maybe"] gets an empty schedule, not an
    InvalidInstallmentFlag failure; and a loan with [installment = "YES"]
    and [method = "Foo"] that ends after its reporting date fails with
    InvalidMethod although its installment field is not the string "yes". *)
Lemma schedule_errors_as_stated_fail :
  (installment expired_loan <> "yes" /\ installment expired_loan <> "no"
   /\ schedule expired_loan = Ok []
   /\ ~ (schedule expired_loan = Err InvalidInstallmentFlag
         <-> installment expired_loan <> "yes"
             /\ installment expired_loan <> "no"))
  /\ (installment upper_case_loan <> "yes"
      /\ schedule upper_case_loan = Err InvalidMethod
      /\ ~ (schedule upper_case_loan = Err InvalidMethod
            <-> installment upper_case_loan = "yes"
                /\ method upper_case_loan <> "annuity"
                /\ method upper_case_loan <> "flat")).
Proof.
  split.
  - split; [discriminate|]. split; [discriminate|]. split; [reflexivity|].
    intros [_ H]. assert (Habs : schedule expired_loan = Err InvalidInstallmentFlag)
      by (apply H; split; discriminate).
    discriminate Habs.
  - split; [discriminate|]. split; [reflexivity|].
    intros [H _]. destruct (H eq_refl) as [Habs _]. discriminate Habs.
Qed.

(** ** Empty schedules give zero-filled buckets *)

Lemma empty_bucket_result_irrbb :
  _empty_bucket_result "irrbb" = Ok (Tall (zero_cells irrbb_labels)).
Proof. reflexivity. Qed.

Lemma empty_bucket_result_lcr :
  _empty_bucket_result "lcr" = Ok (Tall (zero_cells BucketLCR.LABELS)).
Proof. reflexivity. Qed.

Lemma empty_bucket_result_nsfr :
  _empty_bucket_result "nsfr" = Ok (Tall (zero_cells BucketNSFR.LABELS)).
Proof. reflexivity. Qed.

Lemma buckets_of_empty_schedule loan value_type :
  schedule loan = Ok [] ->
  get_bucket_irrbb loan value_type = Ok (Tall (zero_cells irrbb_labels))
  /\ get_bucket_lcr loan value_type = Ok (Tall (zero_cells BucketLCR.LABELS))
  /\ get_bucket_nsfr loan value_type = Ok (Tall (zero_cells BucketNSFR.LABELS))
  /\ get_bucket_irrbb_flat loan value_type = Ok (Tall (zero_cells irrbb_labels))
  /\ get_bucket_lcr_flat loan value_type
     = Ok (Tall (zero_cells BucketLCR.LABELS))
  /\ get_bucket_nsfr_flat loan value_type
     = Ok (Tall (zero_cells BucketNSFR.LABELS)).
Proof.
  intros Hs.
  unfold get_bucket_irrbb, get_bucket_lcr, get_bucket_nsfr,
    get_bucket_irrbb_flat, get_bucket_lcr_flat, get_bucket_nsfr_flat.
  rewrite Hs. repeat split; reflexivity.
Qed.

(** C9, amended.  [schedule] fails with InvalidMethod exactly when the loan
    ends after its reporting date, the lower-cased installment is "yes" and
    the lower-cased method is neither "annuity" nor "flat"; it fails with
    InvalidInstallmentFlag exactly when the loan ends after its reporting
    date and the lower-cased installment is neither "yes" nor "no"; for
    end_date <= reporting_date it never fails: the schedule is empty and
    the six bucket operations return their labels with the value 0. *)
Theorem schedule_errors loan :
  (schedule loan = Err InvalidMethod
   <-> Timestamp_le (end_date loan) (reporting_date loan) = false
       /\ lower (installment loan) = "yes"
       /\ lower (method loan) <> "annuity"
       /\ lower (method loan) <> "flat")
  /\ (schedule loan = Err InvalidInstallmentFlag
      <-> Timestamp_le (end_date loan) (reporting_date loan) = false
          /\ lower (installment loan) <> "yes"
          /\ lower (installment loan) <> "no")
  /\ schedule loan <> Err UnknownBucketType
  /\ (Timestamp_le (end_date loan) (reporting_date loan) = true ->
      schedule loan = Ok []
      /\ forall value_type f,
           In f [get_bucket_irrbb; get_bucket_lcr; get_bucket_nsfr;
                 get_bucket_irrbb_flat; get_bucket_lcr_flat;
                 get_bucket_nsfr_flat] ->
           exists cells,
             f loan value_type = Ok (Tall cells)
             /\ Forall (fun c => c.2 = 0%Q) cells).
Proof.
  rewrite schedule_result.
  destruct (Timestamp_le (end_date loan) (reporting_date loan)) eqn:Hle.
  { split; [split; [discriminate | intros [? _]; discriminate]|].
    split; [split; [discriminate | intros [? _]; discriminate]|].
    split; [discriminate|].
    intros _. split; [reflexivity|].
    intros value_type f Hf.
    destruct (buckets_of_empty_schedule loan value_type (schedule_empty loan Hle))
      as (H1 & H2 & H3 & H4 & H5 & H6).
    cbn [In] in Hf.
    destruct Hf as [<-|[<-|[<-|[<-|[<-|[<-|[]]]]]]];
      eexists; (split; [eassumption|]); repeat constructor. }
  destruct (String.eqb_spec (lower (installment loan)) "no") as [Hno|Hno].
  { split; [split; [discriminate | intros (_ & Hy & _); congruence]|].
    split; [split; [discriminate | intros (_ & _ & Hn); congruence]|].
    split; [discriminate | discriminate]. }
  destruct (String.eqb_spec (lower (installment loan)) "yes") as [Hyes|Hyes].
  - destruct (String.eqb_spec (lower (method loan)) "annuity") as [Ha|Ha].
    { split; [split; [discriminate | intros (_ & _ & Hn & _); congruence]|].
      split; [split; [discriminate | intros (_ & Hn & _); congruence]|].
      split; [discriminate | discriminate]. }
    destruct (String.eqb_spec (lower (method loan)) "flat") as [Hf|Hf].
    { split; [split; [discriminate | intros (_ & _ & _ & Hn); congruence]|].
      split; [split; [discriminate | intros (_ & Hn & _); congruence]|].
      split; [discriminate | discriminate]. }
    split; [split; [intros _; repeat split; assumption | reflexivity]|].
    split; [split; [discriminate | intros (_ & Hn & _); congruence]|].
    split; [discriminate | discriminate].
  - split; [split; [discriminate | intros (_ & Hy & _); congruence]|].
    split; [split; [intros _; repeat split; assumption | reflexivity]|].
    split; [discriminate | discriminate].
Qed.

Lemma schedule_errors_witness :
  Timestamp_le (end_date expired_loan) (reporting_date expired_loan) = true
  /\ schedule expired_loan = Ok [].
Proof.
  split; [reflexivity|].
  exact (proj1 (proj2 (proj2 (proj2 (schedule_errors expired_loan))) eq_refl)).
Defined.

(** C10.  When end_date <= reporting_date, [schedule] returns the empty
    schedule whatever [installment] and [method] hold, as for
    [installment = "maybe"] and [method = "foo"]: the date check comes
    before the validation of the two fields.  The two fields are
    lower-cased before they are compared, so a loan gets the schedule of
    the loan with both fields in lower case, and "YES" with "Annuity" is
    accepted. *)
Theorem schedule_validation_order :
  (forall loan,
     Timestamp_le (end_date loan) (reporting_date loan) = true ->
     forall installment_ method_,
       schedule (with_flags loan installment_ method_) = Ok [])
  /\ schedule expired_loan = Ok []
  /\ (forall loan,
        schedule loan
        = schedule (with_flags loan (lower (installment loan))
                               (lower (method loan))))
  /\ lower "YES" = "yes" /\ lower "Annuity" = "annuity"
  /\ schedule (with_flags annuity_loan_example "YES" "Annuity")
     = schedule annuity_loan_example
  /\ exists row rows,
       schedule (with_flags annuity_loan_example "YES" "Annuity")
       = Ok (row :: rows).
Proof.
  split; [|split; [|split; [|split; [|split; [|split]]]]].
  - intros loan Hle i m. apply schedule_empty. exact Hle.
  - reflexivity.
  - intros loan. rewrite !schedule_result. cbn [with_flags reporting_date
      end_date outstanding interest_rate installment method].
    rewrite !lower_idempotent. reflexivity.
  - reflexivity.
  - reflexivity.
  - reflexivity.
  - eexists _, _. vm_compute. reflexivity.
Qed.

Lemma schedule_validation_order_witness :
  Timestamp_le (end_date expired_loan) (reporting_date expired_loan) = true
  /\ schedule (with_flags expired_loan "perhaps" "bar") = Ok [].
Proof.
  split; [reflexivity|].
  exact (proj1 schedule_validation_order expired_loan eq_refl "perhaps" "bar").
Defined.

(** ** Calendar arithmetic *)

Lemma div_4_of_100 (y : Z) : y / 4 = 25 * (y / 100) + (y mod 100) / 4.
Proof.
  rewrite (Z.div_mod y 100) at 1 by lia.
  replace (100 * (y / 100) + y mod 100)
    with (y mod 100 + (25 * (y / 100)) * 4) by lia.
  rewrite Z.div_add by lia. lia.
Qed.

Lemma div_100_of_400 (y : Z) : y / 100 = 4 * (y / 400) + (y mod 400) / 100.
Proof.
  rewrite (Z.div_mod y 400) at 1 by lia.
  replace (400 * (y / 400) + y mod 400)
    with (y mod 400 + (4 * (y / 400)) * 100) by lia.
  rewrite Z.div_add by lia. lia.
Qed.

Lemma days_before_year_succ y :
  days_before_year (y + 1) = days_before_year y + 365 + leap_day y.
Proof.
  unfold days_before_year, leap_day, isleap. cbv zeta.
  replace (y + 1 - 1) with y by lia.
  pose proof (div_4_of_100 y). pose proof (div_4_of_100 (y - 1)).
  pose proof (div_100_of_400 y). pose proof (div_100_of_400 (y - 1)).
  destruct (Z.eqb_spec (y mod 4) 0), (Z.eqb_spec (y mod 100) 0),
    (Z.eqb_spec (y mod 400) 0); cbn [negb orb andb];
    Z.div_mod_to_equations; lia.
Qed.

Lemma leap_day_bounds y : 0 <= leap_day y <= 1.
Proof. unfold leap_day. destruct (isleap y); lia. Qed.

Lemma days_before_year_mono y1 y2 :
  y1 <= y2 -> days_before_year y1 <= days_before_year y2.
Proof.
  intros H. replace y2 with (y1 + (y2 - y1)) by lia.
  assert (Hk : 0 <= y2 - y1) by lia. revert Hk.
  generalize (y2 - y1). intros k Hk. pattern k.
  apply natlike_ind; [rewrite Z.add_0_r; lia | | exact Hk].
  intros x Hx IH. replace (y1 + Z.succ x) with (y1 + x + 1) by lia.
  rewrite days_before_year_succ. pose proof (leap_day_bounds (y1 + x)). lia.
Qed.

Lemma valid_month_cases m :
  valid_month m ->
  m = 1 \/ m = 2 \/ m = 3 \/ m = 4 \/ m = 5 \/ m = 6 \/ m = 7 \/ m = 8
  \/ m = 9 \/ m = 10 \/ m = 11 \/ m = 12.
Proof. unfold valid_month. lia. Qed.

Ltac month_cases H :=
  apply valid_month_cases in H;
  destruct H as [->|[->|[->|[->|[->|[->|[->|[->|[->|[->|[->| ->]]]]]]]]]]].

Lemma month_within_year y m :
  valid_month m ->
  0 <= days_before_month y m
  /\ 28 <= monthrange y m <= 31
  /\ days_before_month y m + monthrange y m <= 365 + leap_day y.
Proof.
  intros Hm. unfold days_before_month, monthrange, leap_day.
  month_cases Hm; destruct (isleap y); cbn; lia.
Qed.

Lemma month_before_month y m m' :
  valid_month m -> valid_month m' -> m < m' ->
  days_before_month y m + monthrange y m <= days_before_month y m'.
Proof.
  intros Hm Hm' Hlt. unfold days_before_month, monthrange.
  month_cases Hm; month_cases Hm'; try lia; destruct (isleap y); cbn; lia.
Qed.

(** A payment more than 30 days after the reference lies in a later
    calendar month. *)
Lemma days_over_30_months_ge_1 p r :
  valid_date p -> valid_date r ->
  30 < days_between p r -> 1 <= months_between p r.
Proof.
  intros [Hpm Hpd] [Hrm Hrd] Hdays.
  unfold days_between, toordinal, months_between in *.
  destruct (Z.lt_trichotomy (year p) (year r)) as [Hy|[Hy|Hy]].
  - exfalso.
    pose proof (days_before_year_mono (year p + 1) (year r) ltac:(lia)) as Hmono.
    rewrite days_before_year_succ in Hmono.
    pose proof (month_within_year (year p) (month p) Hpm).
    pose proof (month_within_year (year r) (month r) Hrm). lia.
  - destruct (Z.le_gt_cases (month p) (month r)) as [Hle|Hgt]; [exfalso|lia].
    rewrite Hy in *.
    destruct (Z.eq_dec (month p) (month r)) as [Heq|Hne].
    + rewrite Heq in *.
      pose proof (month_within_year (year r) (month r) Hrm). lia.
    + pose proof (month_before_month (year r) (month p) (month r) Hpm Hrm
                    ltac:(lia)). lia.
  - unfold valid_month in *. lia.
Qed.

(** ** The IRRBB classifiers *)

Ltac case_Z_test_pruned :=
  match goal with
  | |- context [Z.ltb ?a ?b] => destruct (Z.ltb_spec a b)
  | |- context [Z.leb ?a ?b] => destruct (Z.leb_spec a b)
  | |- context [Z.eqb ?a ?b] => destruct (Z.eqb_spec a b)
  end; try (exfalso; lia).

Lemma pd_cut_include_lowest m :
  pd_cut m BucketIRRBB.MONTH_EDGES BucketIRRBB.MONTH_LABELS true
  = spec_month_label m.
Proof.
  unfold pd_cut, spec_month_label, BucketIRRBB.MONTH_EDGES,
    BucketIRRBB.MONTH_LABELS.
  cbn [searchsorted_left edge_ltb edge_eqb andb length].
  repeat case_Z_test_pruned; reflexivity.
Qed.

Lemma pd_cut_exclude_lowest m :
  pd_cut m BucketIRRBB.MONTH_EDGES BucketIRRBB.MONTH_LABELS false
  = if m =? 1 then None else spec_month_label m.
Proof.
  unfold pd_cut, spec_month_label, BucketIRRBB.MONTH_EDGES,
    BucketIRRBB.MONTH_LABELS.
  cbn [searchsorted_left edge_ltb edge_eqb andb length].
  repeat case_Z_test_pruned; reflexivity.
Qed.

Lemma spec_month_label_from_1 m : 1 <= m -> is_Some (spec_month_label m).
Proof.
  intros Hm. unfold spec_month_label.
  repeat case_Z_test_pruned; eexists; reflexivity.
Qed.

Lemma spec_month_label_not_day_bucket m :
  spec_month_label m <> Some "≤ 1 bulan".
Proof.
  unfold spec_month_label. repeat case_Z_test_pruned; discriminate.
Qed.

Lemma spec_month_label_in_labels m l :
  spec_month_label m = Some l -> l ∈ BucketIRRBB.MONTH_LABELS.
Proof.
  unfold spec_month_label, BucketIRRBB.MONTH_LABELS.
  repeat case_Z_test_pruned; intros [= <-]; set_solver.
Qed.

(** The classifier of the aggregation path follows the specification's
    rule on every pair of dates. *)
Lemma irrbb_bucket_spec reporting_date row :
  valid_date reporting_date -> valid_date (payment_date row) ->
  Some (irrbb_bucket reporting_date row)
  = spec_irrbb_label (days_between (payment_date row) reporting_date)
                     (months_between (payment_date row) reporting_date).
Proof.
  intros Hr Hp. unfold irrbb_bucket, spec_irrbb_label. cbv zeta.
  destruct (Z.leb_spec (days_between (payment_date row) reporting_date) 30)
    as [Hd|Hd]; [reflexivity|].
  rewrite pd_cut_include_lowest.
  pose proof (days_over_30_months_ge_1 _ _ Hp Hr Hd) as Hm.
  destruct (spec_month_label_from_1 _ Hm) as [l ->]. reflexivity.
Qed.

Lemma irrbb_bucket_day_bucket reporting_date row :
  valid_date reporting_date -> valid_date (payment_date row) ->
  irrbb_bucket reporting_date row = "≤ 1 bulan"
  <-> days_between (payment_date row) reporting_date <= 30.
Proof.
  intros Hr Hp. pose proof (irrbb_bucket_spec reporting_date row Hr Hp) as H.
  unfold spec_irrbb_label in H.
  destruct (Z.leb_spec (days_between (payment_date row) reporting_date) 30)
    as [Hd|Hd].
  - injection H as ->. split; [intros _; exact Hd | reflexivity].
  - split; [|lia]. intros Heq. rewrite Heq in H. symmetry in H.
    destruct (spec_month_label_not_day_bucket _ H).
Qed.

(** The standalone classifier calls [pd.cut] without [include_lowest]:
    it follows the rule except at a month difference of 1, where it gives
    NaN. *)
Lemma BucketIRRBB_get_bucket_spec start_date_ end_date_ :
  BucketIRRBB.get_bucket start_date_ end_date_
  = if (30 <? days_between end_date_ start_date_)
       && (months_between end_date_ start_date_ =? 1)
    then None
    else spec_irrbb_label (days_between end_date_ start_date_)
                          (months_between end_date_ start_date_).
Proof.
  unfold BucketIRRBB.get_bucket, BucketIRRBB.days, BucketIRRBB.months,
    spec_irrbb_label. cbv zeta.
  destruct (Z.leb_spec (days_between end_date_ start_date_) 30) as [Hd|Hd];
    destruct (Z.ltb_spec 30 (days_between end_date_ start_date_)); try lia;
    cbn [andb]; [reflexivity|].
  apply pd_cut_exclude_lowest.
Qed.

(** C5.  The classifier of the aggregation path assigns "≤ 1 bulan" exactly
    when the day difference is at most 30 and otherwise the label of the
    month interval, 1 included in "1-3 bulan".  The standalone
    [BucketIRRBB.get_bucket] does not: a payment on 2024-02-15 against the
    reference 2024-01-01 (45 days, month difference 1) gets "1-3 bulan" in
    the aggregation path and NaN from [BucketIRRBB.get_bucket]. *)
Theorem irrbb_classifiers_at_month_1 :
  let reference := mkTimestamp 2024 1 1 in
  let pay := mkTimestamp 2024 2 15 in
  days_between pay reference = 45
  /\ months_between pay reference = 1
  /\ spec_irrbb_label 45 1 = Some "1-3 bulan"
  /\ irrbb_bucket reference (mkRow 1 pay 0 0 0 0) = "1-3 bulan"
  /\ BucketIRRBB.get_bucket reference pay = None.
Proof. repeat split; reflexivity. Qed.

(** ** Grouping and reindexing *)

Lemma Qsum_ext {A} (f g : A -> Q) (xs : list A) :
  (forall x, x ∈ xs -> (f x == g x)%Q) -> (Qsum (f <$> xs) == Qsum (g <$> xs))%Q.
Proof.
  induction xs as [|x xs IH]; intros H; cbn; [reflexivity|].
  rewrite (H x) by left. rewrite IH; [reflexivity|].
  intros y Hy. apply H. right. exact Hy.
Qed.

Lemma Qsum_zero {A} (f : A -> Q) (xs : list A) :
  (forall x, x ∈ xs -> (f x == 0)%Q) -> (Qsum (f <$> xs) == 0)%Q.
Proof.
  induction xs as [|x xs IH]; intros H; cbn; [reflexivity|].
  rewrite (H x) by left. rewrite IH; [ring|].
  intros y Hy. apply H. right. exact Hy.
Qed.

Lemma bucket_sum_cons bucket value l row rows :
  (bucket_sum bucket value l (row :: rows)
   == (if decide (bucket row = l) then value row else 0)
      + bucket_sum bucket value l rows)%Q.
Proof.
  unfold bucket_sum. rewrite filter_cons.
  destruct (decide (bucket row = l)); cbn; [reflexivity | ring].
Qed.

Lemma groupby_sum_lookup_acc bucket value l rows :
  forall acc : gmap string Q,
    (default 0 (foldl (fun acc '(b, v) => <[b := default 0 (acc !! b) + v]> acc)
                      acc ((fun row => (bucket row, value row)) <$> rows) !! l)
     == default 0 (acc !! l) + bucket_sum bucket value l rows)%Q.
Proof.
  induction rows as [|row rows IH]; intros acc; cbn [fmap list_fmap foldl].
  { unfold bucket_sum. cbn. ring. }
  rewrite IH, bucket_sum_cons.
  destruct (decide (bucket row = l)) as [<-|Hne].
  - rewrite lookup_insert_eq. cbn. ring.
  - rewrite lookup_insert_ne by exact Hne. ring.
Qed.

(** The value that [groupby(...).sum().reindex(...)] holds for a label is
    the sum over the rows of that bucket, and 0 when there is none. *)
Lemma groupby_sum_lookup bucket value l rows :
  (default 0 (groupby_sum ((fun row => (bucket row, value row)) <$> rows) !! l)
   == bucket_sum bucket value l rows)%Q.
Proof.
  unfold groupby_sum. rewrite groupby_sum_lookup_acc.
  rewrite lookup_empty. cbn. ring.
Qed.

Lemma reindex_labels labels fill s : (reindex labels fill s).*1 = labels.
Proof.
  unfold reindex. induction labels as [|l labels IH]; cbn; [reflexivity|].
  rewrite IH. reflexivity.
Qed.

Lemma reindex_lookup labels fill s (i : nat) l :
  labels !! i = Some l ->
  reindex labels fill s !! i = Some (l, default fill (s !! l)).
Proof.
  intros H. unfold reindex. rewrite list_lookup_fmap, H. reflexivity.
Qed.

(** ** The rows of a schedule and their buckets *)

Lemma schedule_payment_dates loan rows row :
  schedule loan = Ok rows -> row ∈ rows ->
  payment_date row
  ∈ generate_payment_dates (reporting_date loan) (end_date loan).
Proof.
  rewrite schedule_result. intros Hs [k Hk]%list_elem_of_lookup.
  destruct (Timestamp_le _ _).
  { injection Hs as <-. rewrite lookup_nil in Hk. discriminate. }
  destruct (String.eqb _ "no").
  { injection Hs as <-. apply bullet_rows_lookup in Hk;
      [|reflexivity|reflexivity].
    destruct Hk as (_ & Hd & _). eapply list_elem_of_lookup_2, Hd. }
  destruct (String.eqb _ "yes"); [|discriminate].
  destruct (String.eqb _ "annuity").
  { injection Hs as <-. apply annuity_rows_lookup in Hk.
    destruct Hk as (_ & Hd & _). eapply list_elem_of_lookup_2, Hd. }
  destruct (String.eqb _ "flat"); [|discriminate].
  injection Hs as <-. apply flat_rows_lookup in Hk.
  destruct Hk as (_ & Hd & _). eapply list_elem_of_lookup_2, Hd.
Qed.

Lemma generate_payment_dates_valid reporting_date end_date d :
  valid_date reporting_date -> valid_date end_date ->
  d ∈ generate_payment_dates reporting_date end_date -> valid_date d.
Proof.
  intros [Hrm _] [_ Hed] [i Hi]%list_elem_of_lookup.
  pose proof (generate_payment_dates_lookup _ _ _ _ Hrm Hi) as H.
  destruct (first_month reporting_date end_date) as [y m].
  destruct H as (_ & Hm & Hday & _).
  pose proof (month_within_year (year d) (month d) Hm).
  split; [exact Hm | lia].
Qed.

Lemma irrbb_bucket_in_labels reporting_date row :
  valid_date reporting_date -> valid_date (payment_date row) ->
  irrbb_bucket reporting_date row ∈ irrbb_labels.
Proof.
  intros Hr Hp. pose proof (irrbb_bucket_spec reporting_date row Hr Hp) as H.
  unfold spec_irrbb_label in H. unfold irrbb_labels.
  destruct (_ <=? 30).
  - injection H as ->. left.
  - right. apply (spec_month_label_in_labels _ _ (eq_sym H)).
Qed.

Lemma lcr_bucket_in_labels reporting_date row :
  lcr_bucket reporting_date row ∈ BucketLCR.LABELS.
Proof.
  unfold lcr_bucket, BucketLCR.LABELS. cbv zeta.
  destruct (_ <=? 30); set_solver.
Qed.

Lemma nsfr_bucket_in_labels reporting_date row :
  nsfr_bucket reporting_date row ∈ BucketNSFR.LABELS.
Proof.
  unfold nsfr_bucket, BucketNSFR.LABELS. cbv zeta.
  destruct (_ <? 6); [set_solver|].
  destruct ((_ >=? 6) && (_ <=? 12)); [set_solver|].
  destruct (_ >? 12); set_solver.
Qed.

Lemma lcr_bucket_within reporting_date row :
  lcr_bucket reporting_date row = "≤30D"
  <-> days_between (payment_date row) reporting_date <= 30.
Proof.
  unfold lcr_bucket. cbv zeta.
  destruct (Z.leb_spec (days_between (payment_date row) reporting_date) 30);
    split; try reflexivity; try discriminate; lia.
Qed.

Lemma lcr_bucket_beyond reporting_date row :
  lcr_bucket reporting_date row = ">30D"
  <-> 30 < days_between (payment_date row) reporting_date.
Proof.
  unfold lcr_bucket. cbv zeta.
  destruct (Z.leb_spec (days_between (payment_date row) reporting_date) 30);
    split; try reflexivity; try discriminate; lia.
Qed.

Lemma NoDup_irrbb_labels : NoDup irrbb_labels.
Proof. apply (bool_decide_unpack _). vm_compute. reflexivity. Qed.

Lemma NoDup_lcr_labels : NoDup BucketLCR.LABELS.
Proof. apply (bool_decide_unpack _). vm_compute. reflexivity. Qed.

Lemma NoDup_nsfr_labels : NoDup BucketNSFR.LABELS.
Proof. apply (bool_decide_unpack _). vm_compute. reflexivity. Qed.

(** ** Value selection of the aggregations *)

Lemma reindex_groupby_cells (bucket : ScheduleRow -> string)
    (value : ScheduleRow -> Q) (labels : list string)
    (rows : list ScheduleRow) (i : nat) (l : string) :
  labels !! i = Some l ->
  exists c,
    reindex labels 0
      (groupby_sum ((fun row => (bucket row, value row)) <$> rows)) !! i
    = Some (l, c)
    /\ (c == bucket_sum bucket value l rows)%Q.
Proof.
  intros Hl. eexists. split; [apply reindex_lookup, Hl|].
  apply groupby_sum_lookup.
Qed.

Lemma bucket_sum_where (bucket : ScheduleRow -> string)
    (value value' : ScheduleRow -> Q) (l : string)
    (P : ScheduleRow -> Prop) `{!forall row, Decision (P row)}
    (rows : list ScheduleRow) :
  (forall row, bucket row = l <-> P row) ->
  (forall row, bucket row = l -> (value row == value' row)%Q) ->
  (bucket_sum bucket value l rows == Qsum (value' <$> filter P rows))%Q.
Proof.
  intros HP Hv. unfold bucket_sum.
  rewrite <- (list_filter_iff (fun row => bucket row = l) P rows HP).
  apply Qsum_ext. intros row [Hb _]%list_elem_of_filter. apply Hv, Hb.
Qed.

(** C7.  For a loan with a non-empty schedule: the flattened LCR result
    with the value mode "interest" holds the interest of the rows at most
    30 days away under "≤30D" and 0 under ">30D"; with "total" it holds
    principal + interest of the rows at most 30 days away and the principal
    alone of the later rows; the flattened NSFR result with "interest" is 0
    in every bucket; the tall IRRBB, LCR and NSFR results hold, per label,
    the plain sum of principal, of interest or of principal + interest
    over the rows of that bucket. *)
Theorem value_selection_rules loan row rows :
  schedule loan = Ok (row :: rows) ->
  let df := row :: rows in
  let rep := reporting_date loan in
  let within := filter (fun r => days_between (payment_date r) rep <= 30) df in
  let beyond := filter (fun r => 30 < days_between (payment_date r) rep) df in
  (exists x y,
     get_bucket_lcr_flat loan "interest" = Ok (Flat [("≤30D", x); (">30D", y)])
     /\ (x == Qsum (interest <$> within))%Q /\ (y == 0)%Q)
  /\ (exists x y,
        get_bucket_lcr_flat loan "total" = Ok (Flat [("≤30D", x); (">30D", y)])
        /\ (x == Qsum ((fun r => principal r + interest r) <$> within))%Q
        /\ (y == Qsum (principal <$> beyond))%Q)
  /\ (exists x y z,
        get_bucket_nsfr_flat loan "interest"
        = Ok (Flat [("<6M", x); ("6-12M", y); (">12M", z)])
        /\ (x == 0)%Q /\ (y == 0)%Q /\ (z == 0)%Q)
  /\ (forall value_type value,
        In (value_type, value)
           [("principal", principal); ("interest", interest);
            ("total", fun r => (principal r + interest r)%Q)] ->
        forall get_bucket bucket labels,
          In (get_bucket, bucket, labels)
             [(get_bucket_irrbb, irrbb_bucket rep, irrbb_labels);
              (get_bucket_lcr, lcr_bucket rep, BucketLCR.LABELS);
              (get_bucket_nsfr, nsfr_bucket rep, BucketNSFR.LABELS)] ->
          exists cells,
            get_bucket loan value_type = Ok (Tall cells)
            /\ cells.*1 = labels
            /\ forall (i : nat) l, labels !! i = Some l ->
                 exists c, cells !! i = Some (l, c)
                           /\ (c == bucket_sum bucket value l df)%Q).
Proof.
  intros Hs df rep within beyond.
  split; [|split; [|split]].
  - eexists _, _. split; [unfold get_bucket_lcr_flat; rewrite Hs; reflexivity|].
    split.
    + etransitivity;
        [exact (groupby_sum_lookup (lcr_bucket rep)
                  (fun r => lcr_flat_value "interest" (lcr_bucket rep r) r)
                  "≤30D" df)|].
      apply bucket_sum_where; [apply lcr_bucket_within|].
      intros r ->. reflexivity.
    + etransitivity;
        [exact (groupby_sum_lookup (lcr_bucket rep)
                  (fun r => lcr_flat_value "interest" (lcr_bucket rep r) r)
                  ">30D" df)|].
      apply Qsum_zero. intros r [-> _]%list_elem_of_filter. reflexivity.
  - eexists _, _. split; [unfold get_bucket_lcr_flat; rewrite Hs; reflexivity|].
    split.
    + etransitivity;
        [exact (groupby_sum_lookup (lcr_bucket rep)
                  (fun r => lcr_flat_value "total" (lcr_bucket rep r) r)
                  "≤30D" df)|].
      apply bucket_sum_where; [apply lcr_bucket_within|].
      intros r ->. reflexivity.
    + etransitivity;
        [exact (groupby_sum_lookup (lcr_bucket rep)
                  (fun r => lcr_flat_value "total" (lcr_bucket rep r) r)
                  ">30D" df)|].
      apply bucket_sum_where; [apply lcr_bucket_beyond|].
      intros r ->. cbn. ring.
  - eexists _, _, _.
    split; [unfold get_bucket_nsfr_flat; rewrite Hs; reflexivity|].
    split; [|split];
      (etransitivity;
       [exact (groupby_sum_lookup (nsfr_bucket rep)
                 (nsfr_flat_value "interest") _ df)|]);
      apply Qsum_zero; reflexivity.
  - intros value_type value Hv get_bucket bucket labels Hg.
    cbn [In] in Hv, Hg.
    destruct Hv as [[= <- <-]|[[= <- <-]|[[= <- <-]|[]]]];
      destruct Hg as [[= <- <- <-]|[[= <- <- <-]|[[= <- <- <-]|[]]]];
      (eexists; split;
       [unfold get_bucket_irrbb, get_bucket_lcr, get_bucket_nsfr;
        rewrite Hs; reflexivity|];
       split; [apply reindex_labels|];
       intros i l Hl;
       apply (reindex_groupby_cells _ _ _ _ _ _ Hl)).
Qed.

Lemma value_selection_rules_witness :
  (exists r1 r2 r3 r4,
     schedule bullet_loan_four = Ok [r1; r2; r3; r4]
     /\ payment_date r1 = mkTimestamp 2024 1 20
     /\ days_between (payment_date r1) (reporting_date bullet_loan_four) = 10
     /\ days_between (payment_date r2) (reporting_date bullet_loan_four) = 41
     /\ interest <$> [r1; r2; r3; r4] = [12000; 12000; 12000; 12000]%Q
     /\ principal <$> [r1; r2; r3; r4] = [0; 0; 0; 1200000]%Q)
  /\ (exists x y,
        get_bucket_lcr_flat bullet_loan_four "interest"
        = Ok (Flat [("≤30D", x); (">30D", y)])
        /\ (x == 12000)%Q /\ (y == 0)%Q)
  /\ (exists x y,
        get_bucket_lcr_flat bullet_loan_four "total"
        = Ok (Flat [("≤30D", x); (">30D", y)])
        /\ (x == 12000)%Q /\ (y == 1200000)%Q)
  /\ (exists x y z,
        get_bucket_nsfr_flat bullet_loan_four "interest"
        = Ok (Flat [("<6M", x); ("6-12M", y); (">12M", z)])
        /\ (x == 0)%Q /\ (y == 0)%Q /\ (z == 0)%Q)
  /\ (exists cells x y,
        get_bucket_lcr bullet_loan_four "interest" = Ok (Tall cells)
        /\ cells !! 0%nat = Some ("≤30D", x) /\ (x == 12000)%Q
        /\ cells !! 1%nat = Some (">30D", y) /\ (y == 36000)%Q)
  /\ (exists cells x y,
        get_bucket_lcr bullet_loan_four "total" = Ok (Tall cells)
        /\ cells !! 0%nat = Some ("≤30D", x) /\ (x == 12000)%Q
        /\ cells !! 1%nat = Some (">30D", y) /\ (y == 1236000)%Q)
  /\ (exists cells x,
        get_bucket_nsfr bullet_loan_four "interest" = Ok (Tall cells)
        /\ cells !! 0%nat = Some ("<6M", x) /\ (x == 48000)%Q).
Proof.
  split.
  { eexists _, _, _, _. split; [vm_compute; reflexivity|].
    repeat split. }
  destruct (value_selection_rules bullet_loan_four _ _ eq_refl)
    as (Hi & Ht & Hn & Htall).
  split.
  { destruct Hi as (x & y & Hget & Hx & Hy).
    exists x, y. split; [exact Hget|]. split; [|exact Hy].
    rewrite Hx. vm_compute. reflexivity. }
  split.
  { destruct Ht as (x & y & Hget & Hx & Hy).
    exists x, y. split; [exact Hget|].
    split; [rewrite Hx | rewrite Hy]; vm_compute; reflexivity. }
  split; [exact Hn|].
  split; [|split].
  - destruct (Htall "interest" interest ltac:(cbn; tauto)
                get_bucket_lcr (lcr_bucket (reporting_date bullet_loan_four))
                BucketLCR.LABELS ltac:(cbn; tauto))
      as (cells & Hget & _ & Hcells).
    destruct (Hcells 0%nat "≤30D" eq_refl) as (x & Hx & Hxv).
    destruct (Hcells 1%nat ">30D" eq_refl) as (y & Hy & Hyv).
    exists cells, x, y. split; [exact Hget|].
    split; [exact Hx|]. split; [rewrite Hxv; vm_compute; reflexivity|].
    split; [exact Hy|]. rewrite Hyv. vm_compute. reflexivity.
  - destruct (Htall "total" (fun r => (principal r + interest r)%Q)
                ltac:(cbn; tauto)
                get_bucket_lcr (lcr_bucket (reporting_date bullet_loan_four))
                BucketLCR.LABELS ltac:(cbn; tauto))
      as (cells & Hget & _ & Hcells).
    destruct (Hcells 0%nat "≤30D" eq_refl) as (x & Hx & Hxv).
    destruct (Hcells 1%nat ">30D" eq_refl) as (y & Hy & Hyv).
    exists cells, x, y. split; [exact Hget|].
    split; [exact Hx|]. split; [rewrite Hxv; vm_compute; reflexivity|].
    split; [exact Hy|]. rewrite Hyv. vm_compute. reflexivity.
  - destruct (Htall "interest" interest ltac:(cbn; tauto)
                get_bucket_nsfr (nsfr_bucket (reporting_date bullet_loan_four))
                BucketNSFR.LABELS ltac:(cbn; tauto))
      as (cells & Hget & _ & Hcells).
    destruct (Hcells 0%nat "<6M" eq_refl) as (x & Hx & Hxv).
    exists cells, x. split; [exact Hget|].
    split; [exact Hx|]. rewrite Hxv. vm_compute. reflexivity.
Defined.

(** C8.  For a loan with end_date <= reporting_date, the three tall
    operations return the labels of their taxonomy with the value 0, and so
    do the three flattened ones, as a tall frame of (bucket, value) rows:
    not the one-row frame with a column per label that they return
    for a non-empty schedule. *)
Theorem empty_range_buckets loan value_type :
  Timestamp_le (end_date loan) (reporting_date loan) = true ->
  get_bucket_irrbb loan value_type = Ok (Tall (zero_cells irrbb_labels))
  /\ get_bucket_lcr loan value_type = Ok (Tall (zero_cells BucketLCR.LABELS))
  /\ get_bucket_nsfr loan value_type = Ok (Tall (zero_cells BucketNSFR.LABELS))
  /\ get_bucket_irrbb_flat loan value_type = Ok (Tall (zero_cells irrbb_labels))
  /\ get_bucket_lcr_flat loan value_type
     = Ok (Tall (zero_cells BucketLCR.LABELS))
  /\ get_bucket_nsfr_flat loan value_type
     = Ok (Tall (zero_cells BucketNSFR.LABELS))
  /\ forall columns,
       get_bucket_irrbb_flat loan value_type <> Ok (Flat columns)
       /\ get_bucket_lcr_flat loan value_type <> Ok (Flat columns)
       /\ get_bucket_nsfr_flat loan value_type <> Ok (Flat columns).
Proof.
  intros Hle.
  destruct (buckets_of_empty_schedule loan value_type (schedule_empty loan Hle))
    as (H1 & H2 & H3 & H4 & H5 & H6).
  repeat (split; [assumption|]).
  intros columns. rewrite H4, H5, H6. repeat split; discriminate.
Qed.

Lemma empty_range_buckets_witness :
  Timestamp_le (end_date matured_loan) (reporting_date matured_loan) = true
  /\ get_bucket_lcr_flat matured_loan "principal"
     = Ok (Tall [("≤30D", 0%Q); (">30D", 0%Q)]).
Proof.
  split; [reflexivity|].
  exact (proj1 (proj2 (proj2 (proj2 (proj2
           (empty_range_buckets matured_loan "principal" eq_refl)))))).
Defined.

(** The flattened operations on a non-empty schedule return the one-row
    frame. *)
Lemma flattened_nonempty_is_flat loan value_type row rows :
  schedule loan = Ok (row :: rows) ->
  exists c1 c2 c3,
    get_bucket_irrbb_flat loan value_type = Ok (Flat c1)
    /\ get_bucket_lcr_flat loan value_type = Ok (Flat c2)
    /\ get_bucket_nsfr_flat loan value_type = Ok (Flat c3)
    /\ c1.*1 = irrbb_labels /\ c2.*1 = BucketLCR.LABELS
    /\ c3.*1 = BucketNSFR.LABELS.
Proof.
  intros Hs. unfold get_bucket_irrbb_flat, get_bucket_lcr_flat,
    get_bucket_nsfr_flat. rewrite Hs.
  eexists _, _, _. repeat split; apply reindex_labels.
Qed.

(** * Further properties *)

(** ** Order of dates and day numbers *)

Lemma toordinal_lt a b :
  valid_date a -> valid_date b ->
  Timestamp_gt b a = true -> toordinal a < toordinal b.
Proof.
  intros [Ham Had] [Hbm Hbd] Hgt. apply Timestamp_gt_true in Hgt.
  unfold toordinal.
  pose proof (month_within_year (year a) (month a) Ham).
  pose proof (month_within_year (year b) (month b) Hbm).
  destruct Hgt as [Hy|[Hy [Hm|[Hm Hd]]]].
  - pose proof (days_before_year_mono (year a + 1) (year b) ltac:(lia)) as Hmono.
    rewrite days_before_year_succ in Hmono. lia.
  - rewrite Hy in *.
    pose proof (month_before_month (year a) (month a) (month b) Ham Hbm Hm). lia.
  - rewrite Hy, Hm in *. lia.
Qed.

Lemma Timestamp_eq_or_gt a b :
  Timestamp_gt a b = false -> a = b \/ Timestamp_gt b a = true.
Proof.
  intros H. apply Timestamp_gt_false in H.
  destruct a as [ya ma da], b as [yb mb db]. cbn in H.
  destruct (Z.eq_dec ya yb) as [->|], (Z.eq_dec ma mb) as [->|],
    (Z.eq_dec da db) as [->|]; [left; reflexivity|..];
    right; apply Timestamp_gt_true; cbn; lia.
Qed.

(** The lexicographic order of well-formed dates is the order of their
    day numbers: [a > b] exactly when [(a - b).days > 0]. *)
Lemma Timestamp_gt_days a b :
  valid_date a -> valid_date b ->
  (Timestamp_gt a b = true <-> 0 < days_between a b).
Proof.
  intros Ha Hb. unfold days_between. split.
  - intros H. pose proof (toordinal_lt b a Hb Ha H). lia.
  - intros H. destruct (Timestamp_gt a b) eqn:Hgt; [reflexivity|].
    destruct (Timestamp_eq_or_gt a b Hgt) as [->|Hlt]; [lia|].
    pose proof (toordinal_lt a b Ha Hb Hlt). lia.
Qed.

Lemma valid_date_intro y m d :
  (1 <=? m) && (m <=? 12) && (1 <=? d) && (d <=? monthrange y m) = true ->
  valid_date (mkTimestamp y m d).
Proof.
  intros H. apply andb_prop in H as [H H4]. apply andb_prop in H as [H H3].
  apply andb_prop in H as [H1 H2].
  unfold valid_date, valid_month. cbn [year month day].
  apply Z.leb_le in H1, H2, H3, H4. lia.
Qed.

(** X1.  A loan's [tenor_days] is positive exactly when its end date is
    after its reporting date, that is, exactly when [schedule] does not
    take its empty-result exit; and a tenor of more than 30 days spans at
    least one calendar month. *)
Theorem tenor_days_positive loan :
  valid_date (reporting_date loan) -> valid_date (end_date loan) ->
  (0 < tenor_days loan
   <-> Timestamp_le (end_date loan) (reporting_date loan) = false)
  /\ (tenor_days loan <= 0 -> schedule loan = Ok [])
  /\ (30 < tenor_days loan -> 1 <= tenor_months loan).
Proof.
  intros Hr He. unfold tenor_days, tenor_months.
  pose proof (Timestamp_gt_days _ _ He Hr) as Hgt.
  assert (Hiff : 0 < days_between (end_date loan) (reporting_date loan)
                 <-> Timestamp_le (end_date loan) (reporting_date loan) = false).
  { unfold Timestamp_le. rewrite negb_false_iff. symmetry. exact Hgt. }
  split; [exact Hiff|]. split.
  - intros Hle. apply schedule_empty.
    destruct (Timestamp_le (end_date loan) (reporting_date loan)) eqn:E;
      [reflexivity|].
    assert (0 < days_between (end_date loan) (reporting_date loan))
      by (apply Hiff; reflexivity).
    lia.
  - intros H. apply (days_over_30_months_ge_1 _ _ He Hr H).
Qed.

Lemma tenor_days_positive_witness :
  0 < tenor_days flat_loan_example
  <-> Timestamp_le (end_date flat_loan_example)
                   (reporting_date flat_loan_example) = false.
Proof.
  exact (proj1 (tenor_days_positive flat_loan_example
                  (valid_date_intro 2024 1 1 eq_refl)
                  (valid_date_intro 2025 1 1 eq_refl))).
Defined.

(** ** How many payment dates there are *)

Lemma first_date_after_end reporting_date end_date y m last_day :
  valid_date reporting_date -> valid_date end_date ->
  Timestamp_le end_date reporting_date = true ->
  first_month reporting_date end_date = (y, m) ->
  Timestamp_gt (mkTimestamp y m last_day) end_date = true.
Proof.
  intros [Hrm Hrd] [Hem Hed] Hle.
  rewrite (first_month_cases _ _ Hrm).
  unfold Timestamp_le in Hle. apply negb_true_iff, Timestamp_gt_false in Hle.
  intros Hfirst. apply Timestamp_gt_true. cbn [year month day].
  unfold valid_month in *.
  destruct (Z.geb_spec (day reporting_date) (day end_date));
    [destruct (Z.eqb_spec (month reporting_date) 12)|];
    injection Hfirst as <- <-; lia.
Qed.

(** X2.  For well-formed dates there is no payment date exactly when
    [end_date <= reporting_date]: the guard of [schedule] on the dates and
    a test [periods == 0] select the same loans, and the flat branch never
    divides by zero periods. *)
Theorem generate_payment_dates_empty_iff reporting_date end_date :
  valid_date reporting_date -> valid_date end_date ->
  (generate_payment_dates reporting_date end_date = []
   <-> Timestamp_le end_date reporting_date = true).
Proof.
  intros Hr He. split.
  - intros Hnil. destruct (Timestamp_le end_date reporting_date) eqn:Hle;
      [reflexivity|].
    pose proof (generate_payment_dates_nonempty _ _ Hr He Hle) as Hlen.
    rewrite Hnil in Hlen. cbn in Hlen. lia.
  - intros Hle.
    pose proof (generate_payment_dates_loop reporting_date end_date) as Hloop.
    pose proof (first_date_after_end reporting_date end_date) as Hfirst.
    destruct (first_month reporting_date end_date) as [y m].
    unfold loop_fuel in Hloop. cbn [payment_dates_loop] in Hloop.
    rewrite (Hfirst y m _ Hr He Hle eq_refl) in Hloop.
    injection Hloop as <-. reflexivity.
Qed.

Lemma generate_payment_dates_empty_iff_witness :
  generate_payment_dates (mkTimestamp 2024 3 31) (mkTimestamp 2024 3 31) = []
  <-> Timestamp_le (mkTimestamp 2024 3 31) (mkTimestamp 2024 3 31) = true.
Proof.
  exact (generate_payment_dates_empty_iff _ _
           (valid_date_intro 2024 3 31 eq_refl)
           (valid_date_intro 2024 3 31 eq_refl)).
Defined.

Lemma payment_dates_loop_complete fuel end_date :
  valid_date end_date ->
  forall y m ds,
    valid_month m ->
    payment_dates_loop fuel (day end_date) end_date y m = Some ds ->
    y * 12 + m <= year end_date * 12 + month end_date ->
    Z.of_nat (length ds) = year end_date * 12 + month end_date - (y * 12 + m) + 1
    /\ last ds = Some end_date.
Proof.
  intros [Hem Hed]. induction fuel as [|fuel IH]; intros y m ds Hm;
    [discriminate|].
  cbn [payment_dates_loop]. intros Hloop Hidx.
  assert (Hd : Timestamp_gt
                 (mkTimestamp y m (Z.min (day end_date) (monthrange y m)))
                 end_date = false).
  { apply Timestamp_gt_false. cbn [year month day].
    unfold valid_month in *.
    destruct (Z.eq_dec y (year end_date)) as [->|];
      [destruct (Z.eq_dec m (month end_date)) as [->|]|]; lia. }
  rewrite Hd in Hloop.
  destruct (next_month y m) as [y' m'] eqn:Hnext.
  destruct (next_month_index _ _ _ _ Hm Hnext) as [Hm' Hidx'].
  destruct (payment_dates_loop fuel _ _ y' m') as [ds'|] eqn:Hrec;
    [|discriminate].
  injection Hloop as <-.
  destruct (Z.le_gt_cases (y' * 12 + m') (year end_date * 12 + month end_date))
    as [Hle|Hgt].
  - destruct (IH _ _ _ Hm' Hrec Hle) as [Hlen Hlast].
    split; [cbn [length]; lia|].
    destruct ds' as [|d' ds'']; [cbn in Hlen; lia|]. exact Hlast.
  - assert (ds' = []) as ->.
    { destruct fuel as [|fuel']; [discriminate|].
      cbn [payment_dates_loop] in Hrec.
      rewrite (proj2 (Timestamp_gt_true _ end_date)) in Hrec.
      - injection Hrec as <-. reflexivity.
      - cbn [year month day]. unfold valid_month in *. lia. }
    unfold valid_month in *.
    assert (y = year end_date /\ m = month end_date) as [-> ->] by lia.
    split; [cbn [length]; lia|].
    cbn [last]. rewrite Z.min_l by lia.
    destruct end_date; reflexivity.
Qed.

Lemma generate_payment_dates_last_length reporting_date end_date :
  valid_date reporting_date -> valid_date end_date ->
  Timestamp_le end_date reporting_date = false ->
  let ds := generate_payment_dates reporting_date end_date in
  last ds = Some end_date
  /\ Z.of_nat (length ds)
     = months_between end_date reporting_date
       + (if day reporting_date >=? day end_date then 0 else 1).
Proof.
  intros Hr He Hle ds.
  pose proof (generate_payment_dates_loop reporting_date end_date) as Hloop.
  pose proof (first_month_valid reporting_date end_date) as Hfv.
  pose proof (first_month_cases reporting_date end_date (proj1 Hr)) as Hfc.
  pose proof (generate_payment_dates_nonempty _ _ Hr He Hle) as Hne.
  fold ds in Hloop, Hne.
  destruct (first_month reporting_date end_date) as [y m].
  specialize (Hfv y m (proj1 Hr) eq_refl).
  assert (Hidx : y * 12 + m <= year end_date * 12 + month end_date).
  { destruct ds as [|d ds'] eqn:Hds; [cbn in Hne; lia|].
    destruct (payment_dates_loop_lookup _ _ _ _ _ _ Hfv Hloop 0%nat d eq_refl)
      as (Hi & Hvm & _ & Hgt).
    apply Timestamp_gt_false in Hgt. destruct He as [Hem _].
    unfold valid_month in *. lia. }
  destruct (payment_dates_loop_complete _ _ He _ _ _ Hfv Hloop Hidx)
    as [Hlen Hlast].
  split; [exact Hlast|]. rewrite Hlen. unfold months_between.
  destruct Hr as [Hrm _]. unfold valid_month in *.
  destruct (day reporting_date >=? day end_date);
    [destruct (Z.eqb_spec (month reporting_date) 12)|];
    injection Hfc as -> ->; lia.
Qed.

(** X3.  For a loan that ends after its reporting date the last payment
    date is the end date itself, and the number of payment dates is the
    calendar-month difference of the two dates, plus one when the
    reporting day is before the end day. *)
Theorem generate_payment_dates_count reporting_date end_date :
  valid_date reporting_date -> valid_date end_date ->
  Timestamp_le end_date reporting_date = false ->
  let ds := generate_payment_dates reporting_date end_date in
  last ds = Some end_date
  /\ Z.of_nat (length ds)
     = months_between end_date reporting_date
       + (if day reporting_date >=? day end_date then 0 else 1).
Proof. apply generate_payment_dates_last_length. Qed.

Lemma generate_payment_dates_count_witness :
  Timestamp_le (mkTimestamp 2025 1 1) (mkTimestamp 2024 1 1) = false
  /\ last (generate_payment_dates (mkTimestamp 2024 1 1) (mkTimestamp 2025 1 1))
     = Some (mkTimestamp 2025 1 1)
  /\ Z.of_nat (length (generate_payment_dates (mkTimestamp 2024 1 1)
                                              (mkTimestamp 2025 1 1)))
     = months_between (mkTimestamp 2025 1 1) (mkTimestamp 2024 1 1) + 0.
Proof.
  split; [reflexivity|].
  exact (generate_payment_dates_count (mkTimestamp 2024 1 1)
           (mkTimestamp 2025 1 1)
           (valid_date_intro 2024 1 1 eq_refl)
           (valid_date_intro 2025 1 1 eq_refl) eq_refl).
Defined.

(** X4.  No payment date lies before the reporting date: every payment date
    is on or after it, so the day and month differences that the
    classifiers use are never negative. *)
Theorem payment_dates_not_before_reporting_date reporting_date end_date d :
  valid_date reporting_date -> valid_date end_date ->
  d ∈ generate_payment_dates reporting_date end_date ->
  Timestamp_gt reporting_date d = false
  /\ 0 <= days_between d reporting_date
  /\ 0 <= months_between d reporting_date.
Proof.
  intros Hr He Hd.
  pose proof (generate_payment_dates_valid _ _ _ Hr He Hd) as Hv.
  apply list_elem_of_lookup in Hd as [i Hi].
  pose proof (generate_payment_dates_lookup _ _ _ _ (proj1 Hr) Hi) as Hlk.
  pose proof (first_month_cases reporting_date end_date (proj1 Hr)) as Hfc.
  destruct (first_month reporting_date end_date) as [y m].
  destruct Hlk as (Hidx & Hvm & Hday & _).
  assert (Hge : Timestamp_gt reporting_date d = false).
  { apply Timestamp_gt_false.
    destruct Hr as [Hrm Hrd]. unfold valid_month in *.
    pose proof (month_within_year (year d) (month d) Hvm) as Hmr.
    destruct (Z.geb_spec (day reporting_date) (day end_date));
      [destruct (Z.eqb_spec (month reporting_date) 12)|];
      injection Hfc as -> ->; try lia.
    destruct (Z.eq_dec (year d) (year reporting_date)) as [Hy|];
      [destruct (Z.eq_dec (month d) (month reporting_date)) as [Hmo|]|];
      try lia.
    rewrite Hy, Hmo in Hday. lia. }
  split; [exact Hge|]. split.
  - destruct (Timestamp_eq_or_gt _ _ Hge) as [<-|Hgt].
    + unfold days_between. lia.
    + apply (Timestamp_gt_days _ _ Hv Hr) in Hgt. lia.
  - apply Timestamp_gt_false in Hge. unfold months_between.
    destruct Hr as [Hrm _]. unfold valid_month in *. lia.
Qed.

Lemma payment_dates_not_before_reporting_date_witness :
  mkTimestamp 2024 2 29
    ∈ generate_payment_dates (mkTimestamp 2024 2 29) (mkTimestamp 2024 5 31)
  /\ Timestamp_gt (mkTimestamp 2024 2 29) (mkTimestamp 2024 2 29) = false
  /\ 0 <= days_between (mkTimestamp 2024 2 29) (mkTimestamp 2024 2 29)
  /\ 0 <= months_between (mkTimestamp 2024 2 29) (mkTimestamp 2024 2 29).
Proof.
  assert (Hin : mkTimestamp 2024 2 29
                  ∈ generate_payment_dates (mkTimestamp 2024 2 29)
                                           (mkTimestamp 2024 5 31)).
  { vm_compute. left. }
  split; [exact Hin|].
  exact (payment_dates_not_before_reporting_date _ _ _
           (valid_date_intro 2024 2 29 eq_refl)
           (valid_date_intro 2024 5 31 eq_refl) Hin).
Defined.

(** ** The rows of every schedule *)

Lemma bullet_rows_columns P mi periods ds :
  forall i b,
    payment_date <$> bullet_rows P mi periods i b ds = ds
    /\ period <$> bullet_rows P mi periods i b ds = seq i (length ds).
Proof.
  induction ds as [|d ds IH]; intros i b; [split; reflexivity|].
  cbn [bullet_rows fmap list_fmap length seq payment_date period].
  destruct (IH (S i) (b - (if (i =? periods)%nat then P else 0))%Q) as [H1 H2].
  split; f_equal; assumption.
Qed.

Lemma annuity_rows_columns r pmt ds :
  forall i b,
    payment_date <$> annuity_rows r pmt i b ds = ds
    /\ period <$> annuity_rows r pmt i b ds = seq i (length ds).
Proof.
  induction ds as [|d ds IH]; intros i b; [split; reflexivity|].
  cbn [annuity_rows fmap list_fmap length seq payment_date period].
  destruct (IH (S i) (b - (pmt - b * r))%Q) as [H1 H2].
  split; f_equal; assumption.
Qed.

Lemma flat_rows_columns mp mi pay ds :
  forall i b,
    payment_date <$> flat_rows mp mi pay i b ds = ds
    /\ period <$> flat_rows mp mi pay i b ds = seq i (length ds).
Proof.
  induction ds as [|d ds IH]; intros i b; [split; reflexivity|].
  cbn [flat_rows fmap list_fmap length seq payment_date period].
  destruct (IH (S i) (b - mp)%Q) as [H1 H2].
  split; f_equal; assumption.
Qed.

Lemma schedule_rows_columns loan rows :
  schedule loan = Ok rows ->
  Timestamp_le (end_date loan) (reporting_date loan) = false ->
  let ds := generate_payment_dates (reporting_date loan) (end_date loan) in
  payment_date <$> rows = ds
  /\ period <$> rows = seq 1 (length ds)
  /\ length rows = length ds.
Proof.
  rewrite schedule_result. intros Hs Hle ds. rewrite Hle in Hs.
  assert (Hgoal : payment_date <$> rows = ds
                  /\ period <$> rows = seq 1 (length ds)).
  { destruct (String.eqb _ "no").
    { injection Hs as <-. apply bullet_rows_columns. }
    destruct (String.eqb _ "yes"); [|discriminate].
    destruct (String.eqb _ "annuity").
    { injection Hs as <-. apply annuity_rows_columns. }
    destruct (String.eqb _ "flat"); [|discriminate].
    injection Hs as <-. apply flat_rows_columns. }
  destruct Hgoal as [H1 H2]. split; [exact H1|]. split; [exact H2|].
  rewrite <- H1. rewrite length_fmap. reflexivity.
Qed.

(** X5.  Whenever [schedule] returns rows for a loan that ends after its
    reporting date, in any of its three branches, the payment dates of the
    rows are the generated payment dates in order and the periods are
    1, 2, ..., N. *)
Theorem schedule_columns loan rows :
  schedule loan = Ok rows ->
  Timestamp_le (end_date loan) (reporting_date loan) = false ->
  let ds := generate_payment_dates (reporting_date loan) (end_date loan) in
  payment_date <$> rows = ds
  /\ period <$> rows = seq 1 (length ds)
  /\ length rows = length ds.
Proof. apply schedule_rows_columns. Qed.

Lemma schedule_columns_witness :
  schedule flat_loan_thirds
  = Ok [mkRow 1 (mkTimestamp 2024 2 1) (33 # 100) (33 # 100) 0 (67 # 100);
        mkRow 2 (mkTimestamp 2024 3 1) (33 # 100) (33 # 100) 0 (33 # 100);
        mkRow 3 (mkTimestamp 2024 4 1) (33 # 100) (33 # 100) 0 0]
  /\ period <$> [mkRow 1 (mkTimestamp 2024 2 1) (33 # 100) (33 # 100) 0 (67 # 100);
                 mkRow 2 (mkTimestamp 2024 3 1) (33 # 100) (33 # 100) 0 (33 # 100);
                 mkRow 3 (mkTimestamp 2024 4 1) (33 # 100) (33 # 100) 0 0]
     = seq 1 (length (generate_payment_dates (mkTimestamp 2024 1 1)
                                             (mkTimestamp 2024 4 1))).
Proof.
  split; [reflexivity|].
  exact (proj1 (proj2 (schedule_columns flat_loan_thirds _ eq_refl eq_refl))).
Defined.

(** ** Rounding error *)

Lemma round_half_even_floor x :
  round_half_even x = Qfloor x \/ round_half_even x = Qfloor x + 1.
Proof.
  unfold round_half_even.
  destruct (Qcompare _ _); [destruct (Z.even _)|..]; auto.
Qed.

Lemma round_half_even_error x :
  (- (1 # 2) <= inject_Z (round_half_even x) - x <= 1 # 2)%Q.
Proof.
  unfold round_half_even.
  pose proof (Qfloor_le x) as Hlo. pose proof (Qlt_floor x) as Hhi.
  rewrite inject_Z_plus in Hhi. change (inject_Z 1) with 1%Q in Hhi.
  destruct (Qcompare (x - inject_Z (Qfloor x)) (1 # 2)) eqn:Hc.
  - apply Qeq_alt in Hc.
    destruct (Z.even (Qfloor x));
      [|rewrite inject_Z_plus; change (inject_Z 1) with 1%Q]; lra.
  - apply Qlt_alt in Hc. lra.
  - apply Qgt_alt in Hc. rewrite inject_Z_plus.
    change (inject_Z 1) with 1%Q. lra.
Qed.

Lemma round2_value x :
  (round2 x == inject_Z (round_half_even (x * 100)) * (1 # 100))%Q.
Proof.
  unfold round2. rewrite Qred_correct.
  rewrite (Qmake_Qdiv (round_half_even (x * 100)) 100).
  unfold Qdiv. reflexivity.
Qed.

Lemma round2_error x : (- (1 # 200) <= round2 x - x <= 1 # 200)%Q.
Proof.
  rewrite round2_value. pose proof (round_half_even_error (x * 100)). lra.
Qed.



(** ** Annuity loans at a zero rate *)

Lemma annuity_rows_zero_rate r pmt mp mi pay ds :
  (r == 0)%Q -> (pmt == mp)%Q -> (mi == 0)%Q -> (pay == mp)%Q ->
  forall i b b',
    (b == b')%Q ->
    annuity_rows r pmt i b ds = flat_rows mp mi pay i b' ds.
Proof.
  intros Hr Hpmt Hmi Hpay.
  induction ds as [|d ds IH]; intros i b b' Hb; [reflexivity|].
  cbn [annuity_rows flat_rows]. f_equal.
  - f_equal.
    + apply round2_comp. rewrite Hpmt, Hpay. reflexivity.
    + apply round2_comp. rewrite Hpmt, Hr. ring.
    + apply round2_comp. rewrite Hr, Hmi. ring.
    + apply round2_py_max_comp. rewrite Hpmt, Hr, Hb. ring.
  - apply IH. rewrite Hpmt, Hr, Hb. ring.
Qed.

(** X7.  At an interest rate of zero the annuity method and the flat
    method give the same schedule, row by row. *)
Theorem annuity_is_flat_at_zero_rate loan :
  (interest_rate loan == 0)%Q ->
  schedule (with_flags loan "yes" "annuity")
  = schedule (with_flags loan "yes" "flat").
Proof.
  intros H0. rewrite !schedule_result.
  cbn [with_flags reporting_date end_date outstanding interest_rate
         installment method].
  destruct (Timestamp_le (end_date loan) (reporting_date loan)); [reflexivity|].
  change (lower "yes") with "yes". change (lower "annuity") with "annuity".
  change (lower "flat") with "flat".
  cbn [String.eqb Ascii.eqb Bool.eqb]. cbv zeta. f_equal.
  assert (Hr : (interest_rate loan / 12 == 0)%Q)
    by (rewrite H0; reflexivity).
  apply annuity_rows_zero_rate.
  - exact Hr.
  - rewrite (annuity_pmt_zero_rate _ _ _ Hr). reflexivity.
  - rewrite Hr. ring.
  - rewrite Hr. ring.
  - reflexivity.
Qed.

Lemma annuity_is_flat_at_zero_rate_witness :
  (interest_rate zero_rate_loan == 0)%Q
  /\ schedule (with_flags zero_rate_loan "yes" "annuity")
     = schedule (with_flags zero_rate_loan "yes" "flat").
Proof.
  split; [reflexivity|].
  exact (annuity_is_flat_at_zero_rate zero_rate_loan (Qeq_refl 0)).
Defined.

(** ** The remaining balance never goes up *)









(** ** The standalone classifiers of [bucket.py] *)

(** X10.  The standalone LCR and NSFR classifiers give, for every pair of
    dates, the label that the aggregation path gives to a row paid on that
    date; the default of the [np.select] in the aggregation path is never
    reached. *)
Theorem standalone_lcr_nsfr_agree reporting_date row :
  BucketLCR.get_bucket reporting_date (payment_date row)
  = lcr_bucket reporting_date row
  /\ BucketNSFR.get_bucket reporting_date (payment_date row)
     = nsfr_bucket reporting_date row
  /\ (nsfr_bucket reporting_date row = "<6M"
      <-> months_between (payment_date row) reporting_date < 6)
  /\ (nsfr_bucket reporting_date row = "6-12M"
      <-> 6 <= months_between (payment_date row) reporting_date <= 12)
  /\ (nsfr_bucket reporting_date row = ">12M"
      <-> 12 < months_between (payment_date row) reporting_date).
Proof.
  unfold BucketLCR.get_bucket, BucketLCR.days, lcr_bucket,
    BucketNSFR.get_bucket, BucketNSFR.months, nsfr_bucket. cbv zeta.
  set (m := months_between (payment_date row) reporting_date).
  split; [reflexivity|].
  destruct (Z.ltb_spec m 6), (Z.geb_spec m 6), (Z.leb_spec m 12),
    (Z.gtb_spec m 12); cbn [andb]; try lia;
    (split; [reflexivity|]);
    (split; [|split]); split; try discriminate; try reflexivity; lia.
Qed.

(** X11.  On well-formed dates the standalone IRRBB classifier gives the
    label of the aggregation path, except exactly when the payment is more
    than 30 days away with a calendar-month difference of 1, where it gives
    NaN. *)
Theorem standalone_irrbb_agrees_except_month_1 reporting_date row :
  valid_date reporting_date -> valid_date (payment_date row) ->
  let days := days_between (payment_date row) reporting_date in
  let months := months_between (payment_date row) reporting_date in
  (30 < days /\ months = 1 ->
   BucketIRRBB.get_bucket reporting_date (payment_date row) = None)
  /\ (~ (30 < days /\ months = 1) ->
      BucketIRRBB.get_bucket reporting_date (payment_date row)
      = Some (irrbb_bucket reporting_date row)).
Proof.
  intros Hr Hp days months.
  rewrite BucketIRRBB_get_bucket_spec.
  rewrite (irrbb_bucket_spec reporting_date row Hr Hp).
  fold days months.
  destruct (Z.ltb_spec 30 days), (Z.eqb_spec months 1); cbn [andb];
    split; intros Hcase; reflexivity || lia.
Qed.

Lemma standalone_irrbb_agrees_except_month_1_witness :
  BucketIRRBB.get_bucket (mkTimestamp 2024 1 1) (mkTimestamp 2024 5 15)
  = Some (irrbb_bucket (mkTimestamp 2024 1 1)
            (mkRow 1 (mkTimestamp 2024 5 15) 0 0 0 0)).
Proof.
  apply (proj2 (standalone_irrbb_agrees_except_month_1 (mkTimestamp 2024 1 1)
                  (mkRow 1 (mkTimestamp 2024 5 15) 0 0 0 0)
                  (valid_date_intro 2024 1 1 eq_refl)
                  (valid_date_intro 2024 5 15 eq_refl))).
  intros [_ H]. discriminate H.
Defined.

(** ** The six bucket operations *)

Ltac each_bucket_operation H :=
  unfold bucket_operations in H; cbn [In] in H;
  destruct H as [[= <- <-]|[[= <- <-]|[[= <- <-]|[[= <- <-]|[[= <- <-]|
                [[= <- <-]|[]]]]]]];
  unfold get_bucket_irrbb, get_bucket_lcr, get_bucket_nsfr,
    get_bucket_irrbb_flat, get_bucket_lcr_flat, get_bucket_nsfr_flat.

Lemma schedule_not_unknown_bucket_type loan :
  schedule loan <> Err UnknownBucketType.
Proof.
  rewrite schedule_result.
  repeat match goal with |- context [if ?c then _ else _] => destruct c end;
    discriminate.
Qed.

(** X12.  Each of the six bucket operations fails exactly when [schedule]
    fails, and with the same error; none of them ever fails with the
    unknown-bucket-type error, which [_empty_bucket_result] raises exactly
    for a type other than "irrbb", "lcr" and "nsfr". *)
Theorem bucket_operations_errors :
  (forall get_bucket labels loan value_type e,
     In (get_bucket, labels) bucket_operations ->
     (get_bucket loan value_type = Err e <-> schedule loan = Err e)
     /\ get_bucket loan value_type <> Err UnknownBucketType)
  /\ (forall bucket_type,
        _empty_bucket_result bucket_type = Err UnknownBucketType
        <-> bucket_type <> "irrbb" /\ bucket_type <> "lcr"
            /\ bucket_type <> "nsfr").
Proof.
  split.
  - intros get_bucket labels loan value_type e Hop.
    pose proof (schedule_not_unknown_bucket_type loan) as Hne.
    each_bucket_operation Hop;
      (destruct (schedule loan) as [[|row rows]|e'];
       [split; [split; discriminate | discriminate]
       |split; [split; discriminate | discriminate]
       |split; [split; intros [= ->]; reflexivity
               |intros [= ->]; apply Hne; reflexivity]]).
  - intros bucket_type. unfold _empty_bucket_result.
    destruct (String.eqb_spec bucket_type "irrbb");
      [split; [discriminate | intros (? & _); contradiction]|].
    destruct (String.eqb_spec bucket_type "lcr");
      [split; [discriminate | intros (_ & ? & _); contradiction]|].
    destruct (String.eqb_spec bucket_type "nsfr");
      [split; [discriminate | intros (_ & _ & ?); contradiction]|].
    split; [intros _; repeat split; assumption | reflexivity].
Qed.

Lemma bucket_operations_errors_witness :
  get_bucket_lcr_flat upper_case_loan "principal" = Err InvalidMethod
  <-> schedule upper_case_loan = Err InvalidMethod.
Proof.
  exact (proj1 (proj1 bucket_operations_errors get_bucket_lcr_flat
                  BucketLCR.LABELS upper_case_loan "principal" InvalidMethod
                  ltac:(unfold bucket_operations; cbn; tauto))).
Defined.

(** X13.  Whatever the loan and the value mode, a bucket operation that
    returns a frame returns the labels of its taxonomy, all of them, in
    the canonical order. *)
Theorem bucket_operations_labels get_bucket labels loan value_type f :
  In (get_bucket, labels) bucket_operations ->
  get_bucket loan value_type = Ok f ->
  (frame_cells f).*1 = labels.
Proof.
  intros Hop. each_bucket_operation Hop;
    (destruct (schedule loan) as [[|row rows]|e'];
     [intros [= <-]; reflexivity
     |intros [= <-]; reflexivity
     |discriminate]).
Qed.

Lemma bucket_operations_labels_witness :
  (frame_cells (Tall [("≤30D", 0%Q); (">30D", 0%Q)])).*1 = BucketLCR.LABELS.
Proof.
  exact (bucket_operations_labels get_bucket_lcr_flat BucketLCR.LABELS
           matured_loan "interest" _
           ltac:(unfold bucket_operations; cbn; tauto) eq_refl).
Defined.

(** ** What the bucket values add up to *)

Lemma schedule_rows_buckets loan rows row :
  valid_date (reporting_date loan) -> valid_date (end_date loan) ->
  schedule loan = Ok rows -> row ∈ rows ->
  valid_date (payment_date row)
  /\ irrbb_bucket (reporting_date loan) row ∈ irrbb_labels.
Proof.
  intros Hr He Hs Hrow.
  assert (Hv : valid_date (payment_date row)).
  { eapply generate_payment_dates_valid; [exact Hr | exact He|].
    eapply schedule_payment_dates; eassumption. }
  split; [exact Hv|]. apply irrbb_bucket_in_labels; assumption.
Qed.

Lemma bucket_sum_ext_in (bucket1 bucket2 : ScheduleRow -> string)
    (value : ScheduleRow -> Q) (l1 l2 : string) (rows : list ScheduleRow) :
  (forall row, row ∈ rows -> (bucket1 row = l1 <-> bucket2 row = l2)) ->
  (bucket_sum bucket1 value l1 rows == bucket_sum bucket2 value l2 rows)%Q.
Proof.
  induction rows as [|row rows IH]; intros H; [reflexivity|].
  rewrite !bucket_sum_cons.
  rewrite IH by (intros r Hr; apply H; right; exact Hr).
  pose proof (H row ltac:(left)) as Hrow.
  destruct (decide (bucket1 row = l1)), (decide (bucket2 row = l2));
    try reflexivity; tauto.
Qed.

(** X15.  The LCR bucket "≤30D" and the IRRBB bucket "≤ 1 bulan" hold the
    same rows: in the tall results of a loan with a non-empty schedule the
    two values are equal, in every value mode. *)
Theorem lcr_and_irrbb_first_bucket loan value_type row rows :
  valid_date (reporting_date loan) -> valid_date (end_date loan) ->
  schedule loan = Ok (row :: rows) ->
  exists x cells_lcr y cells_irrbb,
    get_bucket_lcr loan value_type = Ok (Tall (("≤30D", x) :: cells_lcr))
    /\ get_bucket_irrbb loan value_type
       = Ok (Tall (("≤ 1 bulan", y) :: cells_irrbb))
    /\ (x == y)%Q.
Proof.
  intros Hr He Hs.
  eexists _, _, _, _. unfold get_bucket_lcr, get_bucket_irrbb. rewrite Hs.
  split; [reflexivity|]. split; [reflexivity|].
  etransitivity;
    [exact (groupby_sum_lookup (lcr_bucket (reporting_date loan))
              (plain_value value_type) "≤30D" (row :: rows))|].
  etransitivity;
    [|symmetry;
      exact (groupby_sum_lookup (irrbb_bucket (reporting_date loan))
               (plain_value value_type) "≤ 1 bulan" (row :: rows))].
  apply bucket_sum_ext_in. intros r Hrow.
  destruct (schedule_rows_buckets loan _ r Hr He Hs Hrow) as [Hv _].
  rewrite lcr_bucket_within, (irrbb_bucket_day_bucket _ _ Hr Hv). reflexivity.
Qed.

Lemma lcr_and_irrbb_first_bucket_witness :
  valid_date (reporting_date bullet_loan_four)
  /\ valid_date (end_date bullet_loan_four)
  /\ exists x cells_lcr y cells_irrbb,
       get_bucket_lcr bullet_loan_four "total"
       = Ok (Tall (("≤30D", x) :: cells_lcr))
       /\ get_bucket_irrbb bullet_loan_four "total"
          = Ok (Tall (("≤ 1 bulan", y) :: cells_irrbb))
       /\ (x == y)%Q /\ (x == 12000)%Q
       /\ cells_lcr = [(">30D", 1236000%Q)].
Proof.
  assert (Hr : valid_date (reporting_date bullet_loan_four))
    by apply (valid_date_intro 2024 1 10 eq_refl).
  assert (He : valid_date (end_date bullet_loan_four))
    by apply (valid_date_intro 2024 4 20 eq_refl).
  split; [exact Hr|]. split; [exact He|].
  destruct (lcr_and_irrbb_first_bucket bullet_loan_four "total" _ _ Hr He eq_refl)
    as (x & cells_lcr & y & cells_irrbb & Hlcr & Hirrbb & Hxy).
  exists x, cells_lcr, y, cells_irrbb.
  split; [exact Hlcr|]. split; [exact Hirrbb|]. split; [exact Hxy|].
  assert (H : Ok (Tall (("≤30D", x) :: cells_lcr))
              = get_bucket_lcr bullet_loan_four "total")
    by (symmetry; exact Hlcr).
  vm_compute in H. injection H as -> ->. split; reflexivity.
Defined.

(** ** No negative amounts *)








(** ** The last row *)

(** X17.  The schedule of a loan that ends after its reporting date ends at
    maturity: its last row is paid on the end date and carries the period
    number N, the number of payment dates. *)
Theorem schedule_ends_at_maturity loan rows :
  valid_date (reporting_date loan) -> valid_date (end_date loan) ->
  Timestamp_le (end_date loan) (reporting_date loan) = false ->
  schedule loan = Ok rows ->
  exists row,
    last rows = Some row
    /\ payment_date row = end_date loan
    /\ period row = length rows.
Proof.
  intros Hr He Hle Hs.
  destruct (schedule_rows_columns loan rows Hs Hle) as (Hd & Hp & Hlen).
  destruct (generate_payment_dates_last_length _ _ Hr He Hle) as [Hlast _].
  pose proof (generate_payment_dates_nonempty _ _ Hr He Hle) as Hne.
  rewrite <- Hlen in Hne, Hp. rewrite <- Hd in Hlast.
  rewrite fmap_last in Hlast.
  destruct (last rows) as [row|] eqn:Hrow; [|discriminate].
  exists row. split; [reflexivity|]. split; [injection Hlast as ->; reflexivity|].
  rewrite last_lookup in Hrow.
  assert (Hk : (period <$> rows) !! pred (length rows) = Some (period row))
    by (rewrite list_lookup_fmap, Hrow; reflexivity).
  rewrite Hp in Hk. apply lookup_seq in Hk. lia.
Qed.

Lemma schedule_ends_at_maturity_witness :
  Timestamp_le (end_date flat_loan_thirds) (reporting_date flat_loan_thirds)
  = false
  /\ exists row,
       last [mkRow 1 (mkTimestamp 2024 2 1) (33 # 100) (33 # 100) 0 (67 # 100);
             mkRow 2 (mkTimestamp 2024 3 1) (33 # 100) (33 # 100) 0 (33 # 100);
             mkRow 3 (mkTimestamp 2024 4 1) (33 # 100) (33 # 100) 0 0]
       = Some row
       /\ payment_date row = mkTimestamp 2024 4 1
       /\ period row = 3%nat.
Proof.
  split; [reflexivity|].
  exact (schedule_ends_at_maturity flat_loan_thirds _
           (valid_date_intro 2024 1 1 eq_refl)
           (valid_date_intro 2024 4 1 eq_refl) eq_refl eq_refl).
Defined.

(** * The schedule and the tall aggregations in binary64 *)

(** ** Float subtraction *)

Lemma float_sub_zero (x : float) : (x - 0)%float = x.
Proof.
  apply Prim2SF_inj. rewrite sub_spec.
  change (Prim2SF 0) with (S754_zero false).
  destruct (Prim2SF x) as [[]|[]| |[] m e]; reflexivity.
Qed.

Lemma is_finite_cases (x : float) :
  is_finite x = true ->
  (exists s, Prim2SF x = S754_zero s) \/ (exists s m e, Prim2SF x = S754_finite s m e).
Proof.
  unfold is_finite, Prim2SF. intros H.
  apply negb_true_iff, orb_false_iff in H as [-> ->].
  destruct (is_zero x); [left; eexists; reflexivity|].
  destruct (Z.frexp x) as [r exp].
  destruct (shr_fexp _ _ _ _ _) as [shr e'].
  destruct (shr_m shr); [left|right|left]; repeat eexists.
Qed.

Lemma float_sub_diag (x : float) : is_finite x = true -> (x - x)%float = 0%float.
Proof.
  intros H. apply Prim2SF_inj. rewrite sub_spec.
  change (Prim2SF 0) with (S754_zero false).
  destruct (is_finite_cases x H) as [[s ->]|(s & m & e & ->)].
  - destruct s; reflexivity.
  - unfold SF64sub, SFsub. cbv zeta.
    rewrite Z.sub_diag. reflexivity.
Qed.

(** ** Rounding to cents *)

Lemma b64_round_0 : B64.round 0 = 0%float.
Proof. reflexivity. Qed.

Lemma b64_np_round_0 : B64.np_round 0 = 0%float.
Proof. reflexivity. Qed.

Lemma round_half_even_nonneg x : (0 <= x)%Q -> 0 <= round_half_even x.
Proof.
  intros Hx.
  assert (Hf : 0 <= Qfloor x).
  { change 0 with (Qfloor 0). apply Qfloor_resp_le. exact Hx. }
  destruct (round_half_even_floor x) as [-> | ->]; lia.
Qed.

(** [round] gives the float nearest to a whole number of cents, and that
    number of cents is nearest to the amount. *)
Lemma b64_round_cents (x : float) :
  B64.amount x = true ->
  exists n : Z,
    B64.round x = B64.cents n
    /\ 0 <= n
    /\ (Qabs (inject_Z n - Qabs (B64.exact x) * 100) <= 1 # 2)%Q.
Proof.
  unfold B64.amount. intros [[Hf Hs%negb_true_iff]%andb_true_iff Hb%negb_true_iff]%andb_true_iff.
  exists (round_half_even (Qabs (B64.exact x) * 100)).
  split; [unfold B64.round; rewrite Hf, Hb, Hs; reflexivity|].
  split.
  - apply round_half_even_nonneg.
    pose proof (Qabs_nonneg (B64.exact x)). lra.
  - apply Qabs_Qle_condition, round_half_even_error.
Qed.


(** ** The bullet loop *)

Lemma b64_bullet_rows_length P mi periods i b ds :
  length (B64.bullet_rows P mi periods i b ds) = length ds.
Proof.
  revert i b. induction ds as [|d ds IH]; intros i b; cbn; [reflexivity|].
  rewrite IH. reflexivity.
Qed.

Lemma b64_bullet_rows_lookup P mi periods ds :
  is_finite P = true ->
  forall i (k : nat) row,
    (i + length ds = S periods)%nat ->
    B64.bullet_rows P mi periods i P ds !! k = Some row ->
    B64.period row = (i + k)%nat
    /\ ds !! k = Some (B64.payment_date row)
    /\ B64.interest row = B64.round mi
    /\ (if (i + k =? periods)%nat
        then B64.principal row = B64.round P
             /\ B64.payment row = B64.round (P + mi)
             /\ B64.remaining_balance row = 0%float
        else B64.principal row = 0%float
             /\ B64.payment row = B64.round (0 + mi)
             /\ B64.remaining_balance row = B64.round (B64.py_max P)).
Proof.
  intros HP.
  induction ds as [|d ds IH]; intros i k row Hlen; cbn [B64.bullet_rows].
  { rewrite lookup_nil. discriminate. }
  cbn [length] in Hlen.
  destruct k as [|k]; cbn [lookup list_lookup].
  - intros [= <-]. cbn [B64.period B64.payment_date B64.payment B64.principal
                         B64.interest B64.remaining_balance].
    rewrite Nat.add_0_r. repeat split.
    destruct (i =? periods)%nat.
    + rewrite (float_sub_diag P HP). repeat split.
    + rewrite float_sub_zero. repeat split.
  - intros Hrow.
    destruct (Nat.eqb_spec i periods) as [->|Hne].
    { assert (ds = []) as -> by (destruct ds; [reflexivity | cbn in Hlen; lia]).
      cbn in Hrow. discriminate. }
    rewrite float_sub_zero in Hrow.
    specialize (IH (S i) k row).
    replace (S i + k)%nat with (i + S k)%nat in IH by lia.
    apply IH; [lia | exact Hrow].
Qed.

(** ** The branches of [schedule] *)

Lemma b64_schedule_bullet libm_pow loan :
  lower (B64.installment loan) = "no" ->
  Timestamp_le (B64.end_date loan) (B64.reporting_date loan) = false ->
  B64.schedule libm_pow loan =
    let dates :=
      generate_payment_dates (B64.reporting_date loan) (B64.end_date loan) in
    Ok (B64.bullet_rows (B64.outstanding loan)
          (B64.outstanding loan * (B64.interest_rate loan / 12))
          (length dates) 1 (B64.outstanding loan) dates).
Proof. intros Hi Hle. unfold B64.schedule. rewrite Hi, Hle. reflexivity. Qed.


Lemma b64_schedule_flat libm_pow loan :
  lower (B64.installment loan) = "yes" ->
  lower (B64.method loan) = "flat" ->
  Timestamp_le (B64.end_date loan) (B64.reporting_date loan) = false ->
  B64.schedule libm_pow loan =
    let dates :=
      generate_payment_dates (B64.reporting_date loan) (B64.end_date loan) in
    let P := B64.outstanding loan in
    let mp := (P / B64.of_Z (Z.of_nat (length dates)))%float in
    let mi := (P * (B64.interest_rate loan / 12))%float in
    Ok (B64.flat_rows mp mi (mp + mi) 1 P dates).
Proof. intros Hi Hm Hle. unfold B64.schedule. rewrite Hi, Hm, Hle. reflexivity. Qed.

(** ** Bullet loans *)

(** C1, as stated, fails: a bullet loan of 0.125 with two payment dates has
    the final principal 0.12 in its schedule, not the outstanding amount,
    and its remaining balance before the final period is 0.12 too: every
    monetary field of a row goes through [round(x, 2)]. *)
Lemma bullet_principal_is_rounded :
  B64.installment B64.bullet_loan_eighth = "no"
  /\ Timestamp_gt (B64.end_date B64.bullet_loan_eighth)
                  (B64.reporting_date B64.bullet_loan_eighth) = true
  /\ B64.outstanding B64.bullet_loan_eighth = 0.125%float
  /\ forall libm_pow, exists r1 r2,
       B64.schedule libm_pow B64.bullet_loan_eighth = Ok [r1; r2]
       /\ B64.remaining_balance r1 = B64.cents 12
       /\ B64.principal r2 = B64.cents 12
       /\ (B64.principal r2 =? B64.outstanding B64.bullet_loan_eighth)%float
          = false
       /\ (B64.remaining_balance r1
           =? B64.outstanding B64.bullet_loan_eighth)%float = false.
Proof.
  repeat split; try reflexivity.
  intros libm_pow. eexists _, _. split; [vm_compute; reflexivity|].
  repeat split; vm_compute; reflexivity.
Qed.

(** C1, amended.  For a loan with [installment = "no"] that ends after the
    reporting date, with a finite outstanding amount P and N payment dates:
    the schedule has N rows, numbered from 1, one per payment date; the
    interest is [round(P * (annual_rate / 12), 2)] in every period; before
    period N the principal is 0, the payment is the rounded interest and
    the remaining balance is [round(max(P, 0), 2)]; in period N the
    principal is [round(P, 2)], the payment [round(P + P * (annual_rate /
    12), 2)] and the remaining balance 0.  N = 1 is included.  [round]
    takes an amount to the float nearest to a whole number of cents, the
    number of cents nearest to the amount. *)
Theorem bullet_schedule_binary64 libm_pow loan :
  B64.installment loan = "no" ->
  Timestamp_le (B64.end_date loan) (B64.reporting_date loan) = false ->
  is_finite (B64.outstanding loan) = true ->
  let dates :=
    generate_payment_dates (B64.reporting_date loan) (B64.end_date loan) in
  let N := length dates in
  let P := B64.outstanding loan in
  let monthly_interest := (P * (B64.interest_rate loan / 12))%float in
  (exists rows,
     B64.schedule libm_pow loan = Ok rows
     /\ length rows = N
     /\ forall (k : nat) row, rows !! k = Some row ->
          B64.period row = S k
          /\ dates !! k = Some (B64.payment_date row)
          /\ B64.interest row = B64.round monthly_interest
          /\ ((S k < N)%nat ->
              B64.principal row = 0%float
              /\ B64.payment row = B64.round (0 + monthly_interest)
              /\ B64.remaining_balance row = B64.round (B64.py_max P))
          /\ (S k = N ->
              B64.principal row = B64.round P
              /\ B64.payment row = B64.round (P + monthly_interest)
              /\ B64.remaining_balance row = 0%float))
  /\ forall x, In x [P; monthly_interest; (P + monthly_interest)%float] ->
       B64.amount x = true ->
       exists n : Z,
         B64.round x = B64.cents n
         /\ 0 <= n
         /\ (Qabs (inject_Z n - Qabs (B64.exact x) * 100) <= 1 # 2)%Q.
Proof.
  intros Hi Hle HP dates N P mi. split.
  - eexists. split; [|split].
    + apply b64_schedule_bullet; [rewrite Hi; reflexivity | exact Hle].
    + apply b64_bullet_rows_length.
    + intros k row Hrow.
      apply b64_bullet_rows_lookup in Hrow; [|exact HP|reflexivity].
      destruct Hrow as (Hp & Hd & Hint & Hrest).
      fold dates N in Hrest. cbn [Nat.add] in Hp, Hrest.
      split; [exact Hp|]. split; [exact Hd|]. split; [exact Hint|].
      destruct (Nat.eqb_spec (S k) N) as [Heq|Hne].
      * split; [lia|]. intros _. exact Hrest.
      * split; [|contradiction]. intros _. exact Hrest.
  - intros x _. apply b64_round_cents.
Qed.

Lemma bullet_schedule_binary64_witness :
  B64.installment B64.bullet_loan_example = "no"
  /\ Timestamp_le (B64.end_date B64.bullet_loan_example)
                  (B64.reporting_date B64.bullet_loan_example) = false
  /\ is_finite (B64.outstanding B64.bullet_loan_example) = true
  /\ forall libm_pow, exists r1 r2 r3,
       B64.schedule libm_pow B64.bullet_loan_example = Ok [r1; r2; r3]
       /\ B64.interest r1 = B64.cents 6173
       /\ B64.principal r1 = 0%float
       /\ B64.payment r1 = B64.cents 6173
       /\ B64.remaining_balance r1 = B64.of_Z 12345
       /\ B64.remaining_balance r2 = B64.of_Z 12345
       /\ B64.interest r3 = B64.cents 6173
       /\ B64.principal r3 = B64.of_Z 12345
       /\ B64.payment r3 = B64.cents 1240673
       /\ B64.remaining_balance r3 = 0%float.
Proof.
  split; [reflexivity|]. split; [reflexivity|]. split; [reflexivity|].
  intros libm_pow.
  destruct (bullet_schedule_binary64 libm_pow B64.bullet_loan_example
              eq_refl eq_refl eq_refl) as [(rows & Hs & Hlen & Hrows) _].
  destruct rows as [|r1 [|r2 [|r3 [|]]]]; try discriminate Hlen.
  exists r1, r2, r3. split; [exact Hs|].
  destruct (Hrows 0%nat r1 eq_refl) as (_ & _ & Hi1 & H1 & _).
  destruct (Hrows 1%nat r2 eq_refl) as (_ & _ & _ & H2 & _).
  destruct (Hrows 2%nat r3 eq_refl) as (_ & _ & Hi3 & _ & H3).
  destruct (H1 ltac:(vm_compute; lia)) as (Hp1 & Hpay1 & Hb1).
  destruct (H2 ltac:(vm_compute; lia)) as (_ & _ & Hb2).
  destruct (H3 eq_refl) as (Hp3 & Hpay3 & Hb3).
  rewrite Hi1, Hp1, Hpay1, Hb1, Hb2, Hi3, Hp3, Hpay3, Hb3.
  repeat split; vm_compute; reflexivity.
Defined.

(** ** Flat loans *)

Lemma b64_flat_rows_length mp mi pay i b ds :
  length (B64.flat_rows mp mi pay i b ds) = length ds.
Proof.
  revert i b. induction ds as [|d ds IH]; intros i b; cbn; [reflexivity|].
  rewrite IH. reflexivity.
Qed.

Lemma b64_flat_rows_lookup mp mi pay ds :
  forall i b (k : nat) row,
    B64.flat_rows mp mi pay i b ds !! k = Some row ->
    B64.period row = (i + k)%nat
    /\ ds !! k = Some (B64.payment_date row)
    /\ B64.payment row = B64.round pay
    /\ B64.principal row = B64.round mp
    /\ B64.interest row = B64.round mi
    /\ B64.remaining_balance row
       = B64.round (B64.py_max (B64.flat_balance b mp (S k))).
Proof.
  induction ds as [|d ds IH]; intros i b k row; cbn [B64.flat_rows].
  { rewrite lookup_nil. discriminate. }
  destruct k as [|k]; cbn [lookup list_lookup].
  - intros [= <-]. cbn [B64.period B64.payment_date B64.payment B64.principal
                         B64.interest B64.remaining_balance].
    rewrite Nat.add_0_r. repeat split.
  - intros Hrow. destruct (IH (S i) _ k row Hrow)
      as (Hp & Hd & Hpay & Hpr & Hint & Hbal).
    repeat split; try assumption; [lia|].
    rewrite Hbal. unfold B64.flat_balance.
    rewrite (Nat.iter_succ_r (S k)). reflexivity.
Qed.

(** C4, as stated, fails.  A flat loan of 1 over three periods has the
    principal 0.33 in every row, not 1/3, and its remaining balance goes
    0.67, 0.33, 0, in steps of 0.34 and 0.33.  A flat loan of 10^13 over 36
    periods ends with the remaining balance 0.01: the float
    [principal / periods] is subtracted 36 times and the roundings of the
    subtractions add up to more than half a cent. *)
Lemma flat_schedule_as_stated_fails :
  (B64.installment B64.flat_loan_thirds = "yes"
   /\ B64.method B64.flat_loan_thirds = "flat"
   /\ forall libm_pow, exists r1 r2 r3,
        B64.schedule libm_pow B64.flat_loan_thirds = Ok [r1; r2; r3]
        /\ B64.principal r1 = B64.cents 33
        /\ (B64.principal r1 =? B64.outstanding B64.flat_loan_thirds / 3)%float
           = false
        /\ B64.remaining_balance r1 = B64.cents 67
        /\ B64.remaining_balance r2 = B64.cents 33
        /\ B64.remaining_balance r3 = 0%float
        /\ (B64.remaining_balance r1 - B64.remaining_balance r2
            =? B64.outstanding B64.flat_loan_thirds / 3)%float = false)
  /\ (B64.installment B64.flat_loan_large = "yes"
      /\ B64.method B64.flat_loan_large = "flat"
      /\ forall libm_pow, exists rows row,
           B64.schedule libm_pow B64.flat_loan_large = Ok rows
           /\ length rows = 36%nat
           /\ last rows = Some row
           /\ B64.period row = 36%nat
           /\ B64.remaining_balance row = B64.cents 1
           /\ (B64.remaining_balance row =? 0)%float = false).
Proof.
  split.
  - split; [reflexivity|]. split; [reflexivity|].
    intros libm_pow. eexists _, _, _. split; [vm_compute; reflexivity|].
    repeat split; vm_compute; reflexivity.
  - split; [reflexivity|]. split; [reflexivity|].
    intros libm_pow. eexists _, _. split; [vm_compute; reflexivity|].
    split; [reflexivity|]. split; [vm_compute; reflexivity|].
    repeat split; vm_compute; reflexivity.
Qed.

(** C4, amended.  For a loan with [installment = "yes"] and
    [method = "flat"] that ends after the reporting date, with the
    outstanding amount P and N payment dates: the schedule has N rows,
    numbered from 1, one per payment date; every row has the principal
    [round(P / N, 2)], the interest [round(P * (annual_rate / 12), 2)], on
    the original principal in every period, and the payment
    [round(P / N + P * (annual_rate / 12), 2)]; the remaining balance after
    period i is [round(max(b_i, 0), 2)], where b_i is the float left after
    subtracting the float P / N from P, i times.  The final balance is 0
    when b_N is below half a cent, as in the example of 1,200,000 at 12%
    over 12 periods, but not for every loan.  [round] takes an amount to
    the float nearest to a whole number of cents, the number of cents
    nearest to the amount. *)
Theorem flat_schedule_binary64 libm_pow loan :
  B64.installment loan = "yes" -> B64.method loan = "flat" ->
  Timestamp_le (B64.end_date loan) (B64.reporting_date loan) = false ->
  let dates :=
    generate_payment_dates (B64.reporting_date loan) (B64.end_date loan) in
  let N := length dates in
  let P := B64.outstanding loan in
  let monthly_principal := (P / B64.of_Z (Z.of_nat N))%float in
  let monthly_interest := (P * (B64.interest_rate loan / 12))%float in
  let payment_ := (monthly_principal + monthly_interest)%float in
  (exists rows,
     B64.schedule libm_pow loan = Ok rows
     /\ length rows = N
     /\ forall (k : nat) row, rows !! k = Some row ->
          B64.period row = S k
          /\ dates !! k = Some (B64.payment_date row)
          /\ B64.principal row = B64.round monthly_principal
          /\ B64.interest row = B64.round monthly_interest
          /\ B64.payment row = B64.round payment_
          /\ B64.remaining_balance row
             = B64.round (B64.py_max (B64.flat_balance P monthly_principal (S k))))
  /\ forall x, In x [monthly_principal; monthly_interest; payment_] ->
       B64.amount x = true ->
       exists n : Z,
         B64.round x = B64.cents n
         /\ 0 <= n
         /\ (Qabs (inject_Z n - Qabs (B64.exact x) * 100) <= 1 # 2)%Q.
Proof.
  intros Hi Hm Hle dates N P mp mi pay. split.
  - eexists. split; [|split].
    + apply b64_schedule_flat; [rewrite Hi | rewrite Hm | exact Hle]; reflexivity.
    + apply b64_flat_rows_length.
    + intros k row Hrow. apply b64_flat_rows_lookup in Hrow.
      destruct Hrow as (Hp & Hd & Hpay & Hpr & Hint & Hbal).
      repeat split; assumption.
  - intros x _. apply b64_round_cents.
Qed.

Lemma flat_schedule_binary64_witness :
  B64.installment B64.flat_loan_example = "yes"
  /\ B64.method B64.flat_loan_example = "flat"
  /\ Timestamp_le (B64.end_date B64.flat_loan_example)
                  (B64.reporting_date B64.flat_loan_example) = false
  /\ forall libm_pow, exists rows,
       B64.schedule libm_pow B64.flat_loan_example = Ok rows
       /\ length rows = 12%nat
       /\ (forall (k : nat) row, rows !! k = Some row ->
             B64.period row = S k
             /\ B64.principal row = B64.of_Z 100000
             /\ B64.interest row = B64.of_Z 12000
             /\ B64.payment row = B64.of_Z 112000)
       /\ (forall row, rows !! 0%nat = Some row ->
             B64.remaining_balance row = B64.of_Z 1100000)
       /\ (forall row, rows !! 11%nat = Some row ->
             B64.remaining_balance row = 0%float).
Proof.
  split; [reflexivity|]. split; [reflexivity|]. split; [reflexivity|].
  intros libm_pow.
  destruct (flat_schedule_binary64 libm_pow B64.flat_loan_example
              eq_refl eq_refl eq_refl) as [(rows & Hs & Hlen & Hrows) _].
  exists rows. split; [exact Hs|]. split; [exact Hlen|].
  split; [|split].
  - intros k row Hrow.
    destruct (Hrows k row Hrow) as (Hp & _ & Hpr & Hint & Hpay & _).
    rewrite Hp, Hpr, Hint, Hpay. repeat split; vm_compute; reflexivity.
  - intros row Hrow.
    destruct (Hrows 0%nat row Hrow) as (_ & _ & _ & _ & _ & Hbal).
    rewrite Hbal. vm_compute. reflexivity.
  - intros row Hrow.
    destruct (Hrows 11%nat row Hrow) as (_ & _ & _ & _ & _ & Hbal).
    rewrite Hbal. vm_compute. reflexivity.
Defined.

(** ** Annuity loans *)


Lemma b64_annuity_rows_lookup numpy r pmt ds :
  forall i b nb (k : nat) row,
    B64.annuity_rows numpy r pmt i b nb ds !! k = Some row ->
    B64.period row = (i + k)%nat
    /\ ds !! k = Some (B64.payment_date row)
    /\ B64.payment row = B64.round_as numpy pmt
    /\ exists interest_ principal_payment balance,
         B64.annuity_trace r pmt b (length ds) !! k
         = Some (interest_, principal_payment, balance)
         /\ B64.interest row
            = B64.round_as (match k with O => nb | S _ => numpy end) interest_
         /\ B64.principal row = B64.round_as numpy principal_payment
         /\ B64.remaining_balance row
            = B64.round_as numpy (B64.py_max balance).
Proof.
  induction ds as [|d ds IH]; intros i b nb k row; cbn [B64.annuity_rows].
  { rewrite lookup_nil. discriminate. }
  destruct k as [|k]; cbn [lookup list_lookup length B64.annuity_trace].
  - intros [= <-]. cbn [B64.period B64.payment_date B64.payment B64.principal
                         B64.interest B64.remaining_balance].
    rewrite Nat.add_0_r. repeat split.
    eexists _, _, _. repeat split.
  - intros Hrow. destruct (IH (S i) _ _ k row Hrow) as (Hp & Hd & Hpay & Htr).
    repeat split; try assumption; [lia|].
    destruct Htr as (i_ & p_ & bal & Htr & Hint & Hrest).
    exists i_, p_, bal. split; [exact Htr|]. split; [|exact Hrest].
    rewrite Hint. destruct k; reflexivity.
Qed.






(** ** The tall aggregations *)

Lemma b64_schedule_payment_dates libm_pow loan rows row :
  B64.schedule libm_pow loan = Ok rows -> row ∈ rows ->
  B64.payment_date row
  ∈ generate_payment_dates (B64.reporting_date loan) (B64.end_date loan).
Proof.
  unfold B64.schedule. intros Hs [k Hk]%list_elem_of_lookup.
  destruct (Timestamp_le _ _).
  { injection Hs as <-. rewrite lookup_nil in Hk. discriminate. }
  destruct (String.eqb _ "no").
  { injection Hs as <-. revert Hk. cbv zeta.
    generalize (B64.outstanding loan) at 3.
    generalize (length (generate_payment_dates (B64.reporting_date loan)
                          (B64.end_date loan))).
    generalize 1%nat.
    induction (generate_payment_dates _ _) as [|d ds IH] in k |- *;
      intros i n b; cbn [B64.bullet_rows].
    { rewrite lookup_nil. discriminate. }
    destruct k as [|k]; cbn [lookup list_lookup].
    - intros [= <-]. left.
    - intros Hk. right. eapply IH, Hk. }
  destruct (String.eqb _ "yes"); [|discriminate].
  destruct (String.eqb _ "annuity").
  { injection Hs as <-. apply b64_annuity_rows_lookup in Hk.
    destruct Hk as (_ & Hd & _). eapply list_elem_of_lookup_2, Hd. }
  destruct (String.eqb _ "flat"); [|discriminate].
  injection Hs as <-. apply b64_flat_rows_lookup in Hk.
  destruct Hk as (_ & Hd & _). eapply list_elem_of_lookup_2, Hd.
Qed.

Lemma b64_irrbb_bucket_in_labels reporting_date row :
  valid_date reporting_date -> valid_date (B64.payment_date row) ->
  B64.irrbb_bucket reporting_date row ∈ irrbb_labels.
Proof.
  intros Hr Hp.
  exact (irrbb_bucket_in_labels reporting_date
           (mkRow 0 (B64.payment_date row) 0 0 0 0) Hr Hp).
Qed.

Lemma b64_lcr_bucket_in_labels reporting_date row :
  B64.lcr_bucket reporting_date row ∈ BucketLCR.LABELS.
Proof.
  exact (lcr_bucket_in_labels reporting_date
           (mkRow 0 (B64.payment_date row) 0 0 0 0)).
Qed.

Lemma b64_nsfr_bucket_in_labels reporting_date row :
  B64.nsfr_bucket reporting_date row ∈ BucketNSFR.LABELS.
Proof.
  exact (nsfr_bucket_in_labels reporting_date
           (mkRow 0 (B64.payment_date row) 0 0 0 0)).
Qed.

(** Grouping keeps, for each label, the compensated sum of the values of
    its rows, taken in the order of the rows. *)
Lemma b64_groupby_sum_lookup_acc {A} (bucket : A -> string)
    (value : A -> float) (l : string) (rows : list A) :
  forall acc : gmap string (float * float),
    default (0%float, 0%float)
      (foldl (fun acc '(b, v) =>
                <[b := B64.kahan_add (default (0%float, 0%float) (acc !! b)) v]>
                  acc)
             acc ((fun row => (bucket row, value row)) <$> rows) !! l)
    = foldl B64.kahan_add (default (0%float, 0%float) (acc !! l))
            (value <$> filter (fun row => bucket row = l) rows).
Proof.
  induction rows as [|row rows IH]; intros acc; [reflexivity|].
  cbn [fmap list_fmap foldl]. rewrite IH. rewrite filter_cons.
  destruct (decide (bucket row = l)) as [->|Hne].
  - rewrite lookup_insert_eq. reflexivity.
  - rewrite lookup_insert_ne by exact Hne. reflexivity.
Qed.

Lemma b64_reindex_groupby {A} (bucket : A -> string) (value : A -> float)
    (labels : list string) (rows : list A) :
  B64.reindex labels
    (B64.groupby_sum ((fun row => (bucket row, value row)) <$> rows))
  = (fun l => (l, B64.kahan_sum
                    (value <$> filter (fun row => bucket row = l) rows)))
    <$> labels.
Proof.
  unfold B64.reindex, B64.groupby_sum, B64.kahan_sum.
  apply list_fmap_ext. intros _ l _.
  rewrite b64_groupby_sum_lookup_acc. reflexivity.
Qed.

Lemma concat_nil_groups {A} (labels : list string) :
  concat ((fun _ => @nil A) <$> labels) = [].
Proof. induction labels as [|l labels IH]; [reflexivity | exact IH]. Qed.

(** A label that is not among [labels] adds no row to the groups. *)
Lemma concat_groups_cons_other {A} (bucket : A -> string) (x : A)
    (xs : list A) (labels : list string) :
  bucket x ∉ labels ->
  concat ((fun l => filter (fun y => bucket y = l) (x :: xs)) <$> labels)
  = concat ((fun l => filter (fun y => bucket y = l) xs) <$> labels).
Proof.
  induction labels as [|l labels IH]; intros Hx; [reflexivity|].
  cbn [fmap list_fmap concat]. rewrite filter_cons.
  destruct (decide (bucket x = l)) as [<-|Hne].
  { exfalso. apply Hx. left. }
  rewrite IH; [reflexivity|]. intros H. apply Hx. right. exact H.
Qed.

Lemma concat_groups_cons {A} (bucket : A -> string) (x : A)
    (xs : list A) (labels : list string) :
  NoDup labels -> bucket x ∈ labels ->
  concat ((fun l => filter (fun y => bucket y = l) (x :: xs)) <$> labels)
  ≡ₚ x :: concat ((fun l => filter (fun y => bucket y = l) xs) <$> labels).
Proof.
  induction labels as [|l labels IH]; intros Hnd Hx.
  { apply elem_of_nil in Hx. contradiction. }
  apply NoDup_cons in Hnd as [Hl Hnd].
  cbn [fmap list_fmap concat]. rewrite filter_cons.
  destruct (decide (bucket x = l)) as [Heq|Hne].
  - rewrite concat_groups_cons_other by (rewrite Heq; exact Hl). reflexivity.
  - apply elem_of_cons in Hx as [Hx|Hx]; [contradiction|].
    rewrite (IH Hnd Hx). symmetry. apply Permutation_middle.
Qed.

(** The groups of the labels hold every row once. *)
Lemma groups_partition {A} (bucket : A -> string) (labels : list string)
    (xs : list A) :
  NoDup labels -> (forall x, x ∈ xs -> bucket x ∈ labels) ->
  concat ((fun l => filter (fun y => bucket y = l) xs) <$> labels) ≡ₚ xs.
Proof.
  intros Hnd. induction xs as [|x xs IH]; intros Hin.
  - change (concat ((fun _ => @nil A) <$> labels) ≡ₚ []).
    rewrite concat_nil_groups. reflexivity.
  - rewrite (concat_groups_cons bucket x xs labels Hnd)
      by (apply Hin; left).
    constructor. apply IH. intros y Hy. apply Hin. right. exact Hy.
Qed.

(** C6, as stated, fails.  For the bullet loan of 12345 at 6% with twelve
    payment dates, principal + interest over the rows of the schedule adds
    up to 13085.76, and the values of the tall IRRBB result with the
    value mode "total" to 13085.759999999998, the float just below: each
    cell is a float sum of its rows, rounded on its own.  The two totals
    differ when they are added up from left to right, with compensated
    summation and as exact sums of the floats. *)
Lemma tall_total_sum_is_not_exact :
  valid_date (B64.reporting_date B64.bullet_loan_year)
  /\ valid_date (B64.end_date B64.bullet_loan_year)
  /\ forall libm_pow, exists rows cells,
       B64.schedule libm_pow B64.bullet_loan_year = Ok rows
       /\ length rows = 12%nat
       /\ B64.get_bucket_irrbb libm_pow B64.bullet_loan_year "total" = Ok cells
       /\ cells.*1 = irrbb_labels
       /\ B64.fsum (B64.plain_value "total" <$> rows) = B64.cents 1308576
       /\ B64.fsum cells.*2 = next_down (B64.cents 1308576)
       /\ (B64.fsum cells.*2 =? B64.fsum (B64.plain_value "total" <$> rows))%float
          = false
       /\ (B64.kahan_sum cells.*2
           =? B64.kahan_sum (B64.plain_value "total" <$> rows))%float = false
       /\ ~ (Qsum (B64.exact <$> cells.*2)
             == Qsum (B64.exact <$> (B64.plain_value "total" <$> rows)))%Q.
Proof.
  split; [apply (valid_date_intro 2024 1 1 eq_refl)|].
  split; [apply (valid_date_intro 2025 1 1 eq_refl)|].
  intros libm_pow. eexists _, _.
  split; [vm_compute; reflexivity|]. split; [reflexivity|].
  split; [vm_compute; reflexivity|].
  split; [reflexivity|].
  split; [vm_compute; reflexivity|].
  split; [vm_compute; reflexivity|].
  split; [vm_compute; reflexivity|].
  split; [vm_compute; reflexivity|].
  intros H. apply Qeq_bool_iff in H. vm_compute in H. discriminate H.
Qed.

(** C6, amended.  For a loan with well-formed dates whose schedule is
    [rows], and for each of the three taxonomies: the bucket label of
    every row is one of the taxonomy's labels; the groups of the labels
    hold every row of the schedule once, so the reindex step drops no
    row; and the tall result with the value mode "total" holds, for each
    label in the taxonomy's order, the compensated float sum of
    principal + interest over the rows of that label, in the order of the
    schedule.  The values of the result add up to the total over the rows
    up to the rounding of these float sums. *)
Theorem tall_total_partition libm_pow loan rows :
  valid_date (B64.reporting_date loan) -> valid_date (B64.end_date loan) ->
  B64.schedule libm_pow loan = Ok rows ->
  let rep := B64.reporting_date loan in
  let group (bucket : B64.ScheduleRow -> string) (l : string) :=
    filter (fun row => bucket row = l) rows in
  let cells (bucket : B64.ScheduleRow -> string) (labels : list string) :=
    (fun l => (l, B64.kahan_sum (B64.plain_value "total" <$> group bucket l)))
    <$> labels in
  (forall row, row ∈ rows ->
     B64.irrbb_bucket rep row ∈ irrbb_labels
     /\ B64.lcr_bucket rep row ∈ BucketLCR.LABELS
     /\ B64.nsfr_bucket rep row ∈ BucketNSFR.LABELS)
  /\ (concat (group (B64.irrbb_bucket rep) <$> irrbb_labels) ≡ₚ rows
      /\ concat (group (B64.lcr_bucket rep) <$> BucketLCR.LABELS) ≡ₚ rows
      /\ concat (group (B64.nsfr_bucket rep) <$> BucketNSFR.LABELS) ≡ₚ rows)
  /\ B64.get_bucket_irrbb libm_pow loan "total"
     = Ok (cells (B64.irrbb_bucket rep) irrbb_labels)
  /\ B64.get_bucket_lcr libm_pow loan "total"
     = Ok (cells (B64.lcr_bucket rep) BucketLCR.LABELS)
  /\ B64.get_bucket_nsfr libm_pow loan "total"
     = Ok (cells (B64.nsfr_bucket rep) BucketNSFR.LABELS).
Proof.
  intros Hr He Hs rep group cells.
  assert (Hin : forall row, row ∈ rows ->
            B64.irrbb_bucket rep row ∈ irrbb_labels
            /\ B64.lcr_bucket rep row ∈ BucketLCR.LABELS
            /\ B64.nsfr_bucket rep row ∈ BucketNSFR.LABELS).
  { intros row Hrow. split; [|split].
    - apply b64_irrbb_bucket_in_labels; [exact Hr|].
      eapply generate_payment_dates_valid; [exact Hr | exact He|].
      eapply b64_schedule_payment_dates; eassumption.
    - apply b64_lcr_bucket_in_labels.
    - apply b64_nsfr_bucket_in_labels. }
  split; [exact Hin|]. split.
  { split; [|split].
    - apply groups_partition; [exact NoDup_irrbb_labels|].
      intros row Hrow. apply (Hin row Hrow).
    - apply groups_partition; [exact NoDup_lcr_labels|].
      intros row Hrow. apply (Hin row Hrow).
    - apply groups_partition; [exact NoDup_nsfr_labels|].
      intros row Hrow. apply (Hin row Hrow). }
  unfold B64.get_bucket_irrbb, B64.get_bucket_lcr, B64.get_bucket_nsfr.
  rewrite Hs. subst cells group. cbv beta.
  destruct rows as [|row rows]; [repeat split|].
  rewrite !b64_reindex_groupby. repeat split.
Qed.

Lemma tall_total_partition_witness :
  valid_date (B64.reporting_date B64.bullet_loan_year)
  /\ valid_date (B64.end_date B64.bullet_loan_year)
  /\ forall libm_pow, exists rows,
       B64.schedule libm_pow B64.bullet_loan_year = Ok rows
       /\ length rows = 12%nat
       /\ concat ((fun l =>
                     filter (fun row =>
                               B64.irrbb_bucket (mkTimestamp 2024 1 1) row = l)
                            rows) <$> irrbb_labels) ≡ₚ rows
       /\ B64.get_bucket_irrbb libm_pow B64.bullet_loan_year "total"
          = Ok (zip irrbb_labels
                    ([0%float; B64.cents 18519; B64.cents 18519;
                      B64.cents 18519; next_down (B64.cents 1253019)]
                     ++ replicate 13 0%float))
       /\ B64.get_bucket_lcr libm_pow B64.bullet_loan_year "total"
          = Ok [("≤30D", 0%float); (">30D", B64.cents 1308576)].
Proof.
  assert (Hr : valid_date (B64.reporting_date B64.bullet_loan_year))
    by apply (valid_date_intro 2024 1 1 eq_refl).
  assert (He : valid_date (B64.end_date B64.bullet_loan_year))
    by apply (valid_date_intro 2025 1 1 eq_refl).
  split; [exact Hr|]. split; [exact He|].
  intros libm_pow.
  destruct (B64.schedule libm_pow B64.bullet_loan_year) as [rows|e] eqn:Hs;
    [|vm_compute in Hs; discriminate Hs].
  destruct (tall_total_partition libm_pow B64.bullet_loan_year rows Hr He Hs)
    as (_ & (Hperm & _) & Hirrbb & Hlcr & _).
  exists rows. split; [reflexivity|].
  assert (Hrows : Ok rows = B64.schedule libm_pow B64.bullet_loan_year)
    by (symmetry; exact Hs).
  vm_compute in Hrows. injection Hrows as ->.
  split; [reflexivity|]. split; [exact Hperm|].
  split.
  - rewrite Hirrbb. vm_compute. reflexivity.
  - rewrite Hlcr. vm_compute. reflexivity.
Defined.

(** ** The two readings of [schedule] *)

Lemma b64_bullet_rows_columns P mi periods ds :
  forall i b,
    B64.payment_date <$> B64.bullet_rows P mi periods i b ds = ds
    /\ B64.period <$> B64.bullet_rows P mi periods i b ds = seq i (length ds).
Proof.
  induction ds as [|d ds IH]; intros i b; [split; reflexivity|].
  cbn [B64.bullet_rows fmap list_fmap length seq B64.payment_date B64.period].
  destruct (IH (S i) (b - (if (i =? periods)%nat then P else 0))%float)
    as [H1 H2].
  split; f_equal; assumption.
Qed.

Lemma b64_annuity_rows_columns numpy r pmt ds :
  forall i b nb,
    B64.payment_date <$> B64.annuity_rows numpy r pmt i b nb ds = ds
    /\ B64.period <$> B64.annuity_rows numpy r pmt i b nb ds
       = seq i (length ds).
Proof.
  induction ds as [|d ds IH]; intros i b nb; [split; reflexivity|].
  cbn [B64.annuity_rows fmap list_fmap length seq B64.payment_date B64.period].
  destruct (IH (S i) (b - (pmt - b * r))%float numpy) as [H1 H2].
  split; f_equal; assumption.
Qed.

Lemma b64_flat_rows_columns mp mi pay ds :
  forall i b,
    B64.payment_date <$> B64.flat_rows mp mi pay i b ds = ds
    /\ B64.period <$> B64.flat_rows mp mi pay i b ds = seq i (length ds).
Proof.
  induction ds as [|d ds IH]; intros i b; [split; reflexivity|].
  cbn [B64.flat_rows fmap list_fmap length seq B64.payment_date B64.period].
  destruct (IH (S i) (b - mp)%float) as [H1 H2].
  split; f_equal; assumption.
Qed.

(** X18.  The schedule over binary64 numbers and the schedule over exact
    rationals have the same shape: for two loans with the same dates and
    flags, whatever their amounts and rates and whatever the platform's
    [pow], both fail with the same error, or both return rows with the
    same periods and the same payment dates.  What is proved of the
    errors, the periods and the dates of one holds of the other. *)
Theorem schedule_shape_binary64 libm_pow loan loan64 :
  same_terms loan loan64 ->
  match schedule loan, B64.schedule libm_pow loan64 with
  | Ok rows, Ok rows64 =>
      period <$> rows = B64.period <$> rows64
      /\ payment_date <$> rows = B64.payment_date <$> rows64
  | Err e, Err e64 => e = e64
  | _, _ => False
  end.
Proof.
  intros (Hr & He & Hi & Hm). rewrite schedule_result. unfold B64.schedule.
  rewrite <- Hr, <- He, <- Hi, <- Hm.
  destruct (Timestamp_le _ _); [split; reflexivity|].
  destruct (String.eqb _ "no").
  { cbv zeta.
    edestruct bullet_rows_columns as [-> ->].
    edestruct b64_bullet_rows_columns as [-> ->]. split; reflexivity. }
  destruct (String.eqb _ "yes"); [|reflexivity].
  destruct (String.eqb _ "annuity").
  { cbv zeta.
    edestruct annuity_rows_columns as [-> ->].
    edestruct b64_annuity_rows_columns as [-> ->]. split; reflexivity. }
  destruct (String.eqb _ "flat"); [|reflexivity].
  cbv zeta.
  edestruct flat_rows_columns as [-> ->].
  edestruct b64_flat_rows_columns as [-> ->]. split; reflexivity.
Qed.

Lemma schedule_shape_binary64_witness :
  same_terms flat_loan_example B64.flat_loan_example
  /\ same_terms upper_case_loan
       (B64.mkLoan (mkTimestamp 2024 1 1) "U-1" "IDR" 1 0
                   (mkTimestamp 2023 1 1) (mkTimestamp 2024 4 1) "YES" "Foo")
  /\ forall libm_pow,
       (exists rows64,
          B64.schedule libm_pow B64.flat_loan_example = Ok rows64
          /\ B64.period <$> rows64 = seq 1 12
          /\ last (B64.payment_date <$> rows64) = Some (mkTimestamp 2025 1 1))
       /\ B64.schedule libm_pow
            (B64.mkLoan (mkTimestamp 2024 1 1) "U-1" "IDR" 1 0
                        (mkTimestamp 2023 1 1) (mkTimestamp 2024 4 1) "YES" "Foo")
          = Err InvalidMethod.
Proof.
  assert (H1 : same_terms flat_loan_example B64.flat_loan_example)
    by (repeat split).
  assert (H2 : same_terms upper_case_loan
                 (B64.mkLoan (mkTimestamp 2024 1 1) "U-1" "IDR" 1 0
                    (mkTimestamp 2023 1 1) (mkTimestamp 2024 4 1) "YES" "Foo"))
    by (repeat split).
  split; [exact H1|]. split; [exact H2|].
  intros libm_pow. split.
  - pose proof (schedule_shape_binary64 libm_pow _ _ H1) as H.
    destruct (schedule flat_loan_example) as [rows|e] eqn:Hs;
      [|vm_compute in Hs; discriminate Hs].
    destruct (B64.schedule libm_pow B64.flat_loan_example) as [rows64|e64];
      [|contradiction].
    destruct H as [Hp Hd]. exists rows64. split; [reflexivity|].
    rewrite <- Hp, <- Hd.
    assert (Hrows : Ok rows = schedule flat_loan_example)
      by (symmetry; exact Hs).
    vm_compute in Hrows. injection Hrows as ->.
    split; reflexivity.
  - pose proof (schedule_shape_binary64 libm_pow _ _ H2) as H.
    destruct (schedule upper_case_loan) as [rows|e] eqn:Hs;
      [vm_compute in Hs; discriminate Hs|].
    destruct (B64.schedule libm_pow _) as [rows64|e64]; [contradiction|].
    rewrite <- H. vm_compute in Hs. injection Hs as <-. reflexivity.
Defined.
